(** * The 2048 board engine of [components/2048-game.tsx]

    A shallow embedding of the board operations ([addRandomTile],
    [transpose], [reverseRows], [slideAndMerge], [move], [hasMoves]) and of
    the body of the [handleMove] callback, followed by the properties of the
    written specification that concern them.

    Conventions of the embedding.
    - A tile value is a JavaScript number holding an integer; it is a [Z]
      here.  A [number[]] is a [list Z], a [number[][]] a list of rows.
    - An array read [a[i]] is stdpp's partial lookup [a !! i]; [None] plays
      the part of [undefined].
    - The functions that can read a property of [undefined] (and so throw a
      [TypeError]) return an [option]; [None] is the run that does not
      return a value.  On 4x4 boards every one of them returns.
    - [Math.random()] is a stateful source of binary64 numbers of [0,1): a
      stream of rationals read at a cursor, threaded explicitly.  The
      product [Math.random() * empty.length] is rounded to the nearest
      binary64 number ([binary64]) before [Math.floor], as the code does.
    - The score is reduced in exact integers ([boardSum]);
      [scoreInBinary64] is the same reduce with every addition rounded to
      binary64, and the two agree while the cells are non-negative and sum
      to less than 2^53, which the theorems about the score assume. *)

From Stdlib Require Import ZArith QArith Qround Qpower Lia Lqa.
From stdpp Require Import base option list numbers.

Local Open Scope Z_scope.

(** ** Data *)

Abbreviation Row := (list Z).
Abbreviation Board := (list (list Z)).

Definition SIZE : nat := 4.

Inductive Direction : Set := up | down | left | right.

(** The object returned by [move]; the caller destructures it as
    [{ board: newBoard, moved }]. *)
Record MoveResult : Set := { newBoard : Board; moved : bool }.

(** The three [useState] cells of the component. *)
Record Session : Set := { board : Board; score : Z; gameOver : bool }.

(** ** The random source *)

Record Rng : Type := { draws : nat -> Q; cursor : nat }.

Definition random (g : Rng) : Q * Rng :=
  (draws g (cursor g), {| draws := draws g; cursor := S (cursor g) |}).

(** Every draw lies between 0 and [1 - 2^-53], the largest binary64 number
    below 1, as every result of [Math.random] does. *)
Definition rngValid (g : Rng) : Prop :=
  forall n, (0 <= draws g n)%Q
            /\ (draws g n <= 9007199254740991 # 9007199254740992)%Q.

(** ** Binary64 arithmetic *)

(** The exponent [e] of a positive rational: [2^e <= x < 2^(e+1)]. *)
Definition Qexponent (x : Q) : Z :=
  let e := Z.log2 (Qnum x) - Z.log2 (Zpos (Qden x)) in
  if Qle_bool (2 ^ e) x then e else e - 1.

(** The nearest integer, ties to the even one. *)
Definition roundHalfEven (n : Q) : Z :=
  let f := Qfloor n in
  match (n - inject_Z f ?= 1 # 2)%Q with
  | Lt => f
  | Gt => f + 1
  | Eq => if Z.even f then f else f + 1
  end.

(** The spacing of the binary64 numbers around a positive [x], as an
    exponent of two: 52 binary places below the exponent of [x], and never
    below that of the subnormal numbers. *)
Definition ulpExponent (x : Q) : Z := Z.max (Qexponent x) (-1022) - 52.

(** The binary64 number nearest to a positive [x] below 2^1024. *)
Definition binary64pos (x : Q) : Q :=
  (inject_Z (roundHalfEven (x / 2 ^ ulpExponent x)) * 2 ^ ulpExponent x)%Q.

(** The result of an arithmetic operation whose exact value is [x]:
    round to nearest, ties to even (no overflow below 2^1024). *)
Definition binary64 (x : Q) : Q :=
  match (x ?= 0)%Q with
  | Eq => 0%Q
  | Gt => binary64pos x
  | Lt => (- binary64pos (- x))%Q
  end.

(** ** Loops *)

(** [for (x of l) { st = body(st, x) }] where the body may throw. *)
Fixpoint forEachM {S A : Type} (body : S -> A -> option S) (l : list A) (st : S)
  : option S :=
  match l with
  | [] => Some st
  | x :: l' => match body st x with
               | Some st' => forEachM body l' st'
               | None => None
               end
  end.

(** [for (x of l) { if (test(x)) return true } return false] where the test
    may throw. *)
Fixpoint anyM {A : Type} (test : A -> option bool) (l : list A) : option bool :=
  match l with
  | [] => Some false
  | x :: l' => match test x with
               | Some true => Some true
               | Some false => anyM test l'
               | None => None
               end
  end.

(** [arr.some((v, i) => p(v, i))], the index starting at [i]. *)
Fixpoint someFrom (i : nat) (p : Z -> nat -> bool) (arr : list Z) : bool :=
  match arr with
  | [] => false
  | v :: arr' => p v i || someFrom (S i) p arr'
  end.

Definition some (p : Z -> nat -> bool) (arr : list Z) : bool := someFrom 0 p arr.

(** [a[z]] for a computed index [z]. *)
Definition lookupZ {A : Type} (l : list A) (z : Z) : option A :=
  if z <? 0 then None else l !! Z.to_nat z.

(** ** The board engine *)

Definition createEmptyBoard : Board := replicate SIZE (replicate SIZE 0).

(** The inner loop of [addRandomTile]: the columns of row [r]. *)
Definition collectRow (r : nat) (row : list Z) (empty : list (nat * nat))
  : list (nat * nat) :=
  fold_left (fun acc c => if bool_decide (row !! c = Some 0) then acc ++ [(r, c)] else acc)
            (seq 0 SIZE) empty.

(** The two nested loops of [addRandomTile] that fill [empty]. *)
Definition emptyCells (b : Board) : option (list (nat * nat)) :=
  forEachM (fun empty r => row ← b !! r; Some (collectRow r row empty))
           (seq 0 SIZE) [].

Definition tileOf (u : Q) : Z := if Qlt_le_dec u (9 # 10) then 2 else 4.

Definition addRandomTile (b : Board) (g : Rng) : option (Board * Rng) :=
  empty ← emptyCells b;
  if (length empty =? 0)%nat then Some (b, g)
  else
    let (u1, g1) := random g in
    rc ← lookupZ empty (Qfloor (binary64 (u1 * inject_Z (Z.of_nat (length empty)))));
    let (u2, g2) := random g1 in
    row ← b !! rc.1;
    Some (<[rc.1 := <[rc.2 := tileOf u2]> row]> b, g2).

Definition cloneBoard (b : Board) : Board := map (fun row => row) b.

(** [board[0].map((_, i) => board.map(row => row[i]))].  A row without
    index [i] would put [undefined] into a [number[][]]; the model stops
    there with [None]. *)
Definition transpose (b : Board) : option Board :=
  row0 ← b !! 0%nat;
  mapM (fun i => mapM (fun row : list Z => row !! i) b) (seq 0 (length row0)).

Definition reverseRows (b : Board) : Board := map (fun row => rev row) b.

(** One turn of the [for] loop of [slideAndMerge]; the state is
    [(merged, skip)]. *)
Definition mergeStep (filtered : list Z) (st : list Z * bool) (i : nat)
  : list Z * bool :=
  let (merged, skip) := st in
  if skip then (merged, false)
  else match filtered !! i with
       | Some x =>
           if bool_decide (i + 1 < length filtered)%nat
              && bool_decide (filtered !! i = filtered !! (i + 1)%nat)
           then (merged ++ [x * 2], true)
           else (merged ++ [x], false)
       | None => (merged, false)
       end.

(** [while (merged.length < SIZE) merged.push(0)]. *)
Fixpoint padLoop (fuel : nat) (merged : list Z) : list Z :=
  match fuel with
  | O => merged
  | S fuel' => if (length merged <? SIZE)%nat
               then padLoop fuel' (merged ++ [0])
               else merged
  end.

Definition slideAndMerge (row : list Z) : list Z :=
  let filtered := filter (fun v => v ≠ 0) row in
  let merged := (fold_left (mergeStep filtered) (seq 0 (length filtered)) ([], false)).1 in
  padLoop SIZE merged.

(** The body of the [for (let r = 0; r < SIZE; r++)] loop shared by the four
    branches of [move]; the state is [(newBoard, moved)]. *)
Definition slideRow (st : Board * bool) (r : nat) : option (Board * bool) :=
  let (nb, mv) := st in
  row ← nb !! r;
  let merged := slideAndMerge row in
  let mv' := if negb mv && some (fun v i => negb (bool_decide (Some v = row !! i))) merged
             then true else mv in
  Some (<[r := merged]> nb, mv').

Definition slideRows (nb : Board) : option (Board * bool) :=
  forEachM slideRow (seq 0 SIZE) (nb, false).

Definition move (b : Board) (direction : Direction) : option MoveResult :=
  let nb := cloneBoard b in
  match direction with
  | up =>
      nb ← transpose nb;
      st ← slideRows nb;
      nb ← transpose st.1;
      Some {| newBoard := nb; moved := st.2 |}
  | down =>
      nb ← transpose nb;
      let nb := reverseRows nb in
      st ← slideRows nb;
      let nb := reverseRows st.1 in
      nb ← transpose nb;
      Some {| newBoard := nb; moved := st.2 |}
  | left =>
      st ← slideRows nb;
      Some {| newBoard := st.1; moved := st.2 |}
  | right =>
      let nb := reverseRows nb in
      st ← slideRows nb;
      let nb := reverseRows st.1 in
      Some {| newBoard := nb; moved := st.2 |}
  end.

(** The three tests made at cell [(r, c)] by [hasMoves]. *)
Definition hasMovesAt (b : Board) (r c : nat) : option bool :=
  row ← b !! r;
  if bool_decide (row !! c = Some 0) then Some true
  else if bool_decide (c + 1 < SIZE)%nat && bool_decide (row !! c = row !! (c + 1)%nat)
  then Some true
  else if bool_decide (r + 1 < SIZE)%nat
  then below ← b !! (r + 1)%nat;
       Some (bool_decide (row !! c = below !! c))
  else Some false.

Definition hasMoves (b : Board) : option bool :=
  anyM (fun r => anyM (fun c => hasMovesAt b r c) (seq 0 SIZE)) (seq 0 SIZE).

(** ** The session controller *)

(** [addedBoard.flat().reduce((a, b) => a + b, 0)], summed in exact
    integers; [scoreInBinary64] below is the same reduce in binary64. *)
Definition boardSum (b : Board) : Z := fold_left Z.add (concat b) 0.

(** The body of the callback [handleMove]: it reads the three state cells of
    the render it was created in and, when the input is accepted, writes all
    three; one call is one transition of the session. *)
Definition handleMove (s : Session) (direction : Direction) (g : Rng)
  : option (Session * Rng) :=
  if gameOver s then Some (s, g)
  else
    res ← move (board s) direction;
    if negb (moved res) then Some (s, g)
    else
      added ← addRandomTile (newBoard res) g;
      let addedBoard := added.1 in
      let newScore := boardSum addedBoard in
      h ← hasMoves addedBoard;
      Some ({| board := addedBoard;
               score := newScore;
               gameOver := if negb h then true else gameOver s |}, added.2).

(** ** The line algorithm in the words of the specification *)

(** Step 1: remove all zeros, preserving relative order. *)
Definition removeZeros (line : list Z) : list Z := filter (fun v => v ≠ 0) line.

(** Step 2: scan left to right; an adjacent equal pair is replaced by its
    sum and both members are consumed. *)
Fixpoint mergePairs (l : list Z) : list Z :=
  match l with
  | a :: ((b :: rest) as tl) =>
      if bool_decide (a = b) then (a + b) :: mergePairs rest else a :: mergePairs tl
  | _ => l
  end.

(** Step 3: pad with trailing zeros to length [n]. *)
Definition padTo (n : nat) (l : list Z) : list Z := l ++ replicate (n - length l) 0.

Definition slideAndMergeLine (line : list Z) : list Z :=
  padTo SIZE (mergePairs (removeZeros line)).

(** ** Boards of the fixed dimension *)

Definition is4x4 (b : Board) : Prop :=
  length b = SIZE /\ Forall (fun row => length row = SIZE) b.

Definition cellAt (b : Board) (r c : nat) : option Z := row ← b !! r; row !! c.

(** Whether the [some] test of [move] fires on a row. *)
Definition rowChanged (row : list Z) : bool :=
  some (fun v i => negb (bool_decide (Some v = row !! i))) (slideAndMerge row).

(** ** The move in the words of the specification *)

(** Transform the board into the orientation where the requested direction
    becomes left. *)
Definition toLeft (direction : Direction) (b : Board) : option Board :=
  match direction with
  | left => Some b
  | right => Some (reverseRows b)
  | up => transpose b
  | down => t ← transpose b; Some (reverseRows t)
  end.

(** Transform back to the original orientation. *)
Definition fromLeft (direction : Direction) (b : Board) : option Board :=
  match direction with
  | left => Some b
  | right => Some (reverseRows b)
  | up => transpose b
  | down => transpose (reverseRows b)
  end.

Definition moveBySpec (b : Board) (direction : Direction) : option Board :=
  t ← toLeft direction b;
  fromLeft direction (map slideAndMerge t).

(** The test of [hasMoves] at a cell, in terms of cells. *)
Definition mergeableAt (b : Board) (r c : nat) : bool :=
  bool_decide (cellAt b r c = Some 0)
  || bool_decide (c + 1 < SIZE)%nat
     && bool_decide (cellAt b r c = cellAt b r (c + 1)%nat)
  || bool_decide (r + 1 < SIZE)%nat
     && bool_decide (cellAt b r c = cellAt b (r + 1)%nat c).

(** ** Settled boards *)

(** Two equal non-zero values next to each other in a line. *)
Definition linePair (l : list Z) : Prop :=
  exists i v, v ≠ 0 /\ l !! i = Some v /\ l !! (i + 1)%nat = Some v.

(** Two equal non-zero tiles next to each other in some row. *)
Definition rowPair (b : Board) : Prop :=
  exists r c v, v ≠ 0 /\ cellAt b r c = Some v /\ cellAt b r (c + 1)%nat = Some v.

(** Two equal non-zero tiles next to each other in some column. *)
Definition columnPair (b : Board) : Prop :=
  exists r c v, v ≠ 0 /\ cellAt b r c = Some v /\ cellAt b (r + 1)%nat c = Some v.

(** Two equal non-zero tiles next to each other along the axis of a move. *)
Definition mergeableAlong (direction : Direction) (b : Board) : Prop :=
  match direction with
  | left | right => rowPair b
  | up | down => columnPair b
  end.

(** The second of two moves in one direction reports no change. *)
Definition secondMoveSettled (b : Board) (direction : Direction) : Prop :=
  exists res1 res2,
    move b direction = Some res1
    /\ move (newBoard res1) direction = Some res2
    /\ moved res2 = false.

(** ** Empty cells *)

(** The coordinates of the empty cells, in row-major order. *)
Definition emptyOf (b : Board) : list (nat * nat) :=
  r ← seq 0 SIZE;
  (fun c => (r, c)) <$> filter (fun c => cellAt b r c = Some 0) (seq 0 SIZE).

(** [reduce((a, b) => a + b, 0)] on a line. *)
Definition lineSum (l : list Z) : Z := fold_left Z.add l 0.

(** ** Sequences of inputs *)

(** The session after a sequence of directional inputs, each handled by
    [handleMove] on the state left by the one before. *)
Fixpoint handleMoves (s : Session) (directions : list Direction) (g : Rng)
  : option (Session * Rng) :=
  match directions with
  | [] => Some (s, g)
  | d :: rest =>
      match handleMove s d g with
      | Some (s', g') => handleMoves s' rest g'
      | None => None
      end
  end.

(** ** The score *)

(** The sum of the sixteen cells, cell by cell. *)
Definition cellTotal (b : Board) : Z :=
  foldr Z.add 0 (r ← seq 0 SIZE; c ← seq 0 SIZE; [default 0 (cellAt b r c)]).

(** [a + b] on two numbers holding integers, as the code computes it: the
    binary64 number nearest to the exact sum. *)
Definition addNumbers (a b : Z) : Z := Qfloor (binary64 (inject_Z (a + b))).

(** [addedBoard.flat().reduce((a, b) => a + b, 0)] in binary64 arithmetic. *)
Definition scoreInBinary64 (b : Board) : Z := fold_left addNumbers (concat b) 0.

(** ** Sample values *)

(** A source whose first draw, 6004799503160661 / 2^53, times 3 rounds up
    to 2 in binary64 although the exact product is below 2. *)
Definition roundingRng : Rng :=
  {| draws := fun n => if Nat.even n then 6004799503160661 # 9007199254740992 else 1 # 2;
     cursor := 0 |}.

(** A board with exactly three empty cells: (0,0), (1,1) and (2,2). *)
Definition threeEmpty : Board :=
  [[0; 2; 4; 8]; [2; 0; 4; 8]; [2; 4; 0; 8]; [2; 4; 8; 16]].

(** A source whose draws alternate between 1/2 and 19/20. *)
Definition sampleRng : Rng :=
  {| draws := fun n => if Nat.even n then 1 # 2 else 19 # 20; cursor := 0 |}.

Definition sampleBoard : Board :=
  [[2; 2; 4; 0]; [0; 0; 0; 0]; [0; 2; 0; 0]; [0; 2; 0; 8]].

(** A board without an empty cell and without equal neighbours. *)
Definition fullBoard : Board :=
  [[2; 4; 2; 4]; [4; 2; 4; 2]; [2; 4; 2; 4]; [4; 2; 4; 2]].

(** A board already pushed to the left. *)
Definition leftBoard : Board :=
  [[2; 0; 0; 0]; [4; 2; 0; 0]; [0; 0; 0; 0]; [8; 4; 2; 0]].

(** ** Tiles that can advance *)

(** A zero immediately followed by a non-zero value. *)
Definition lineGap (l : list Z) : Prop :=
  exists i v, v ≠ 0 /\ l !! i = Some 0 /\ l !! (i + 1)%nat = Some v.

(** Some tile has an empty cell right ahead of it in the direction. *)
Definition canSlide (direction : Direction) (b : Board) : Prop :=
  exists r c v, v ≠ 0 /\
    match direction with
    | left => cellAt b r c = Some 0 /\ cellAt b r (c + 1)%nat = Some v
    | right => cellAt b r c = Some v /\ cellAt b r (c + 1)%nat = Some 0
    | up => cellAt b r c = Some 0 /\ cellAt b (r + 1)%nat c = Some v
    | down => cellAt b r c = Some v /\ cellAt b (r + 1)%nat c = Some 0
    end.

(** ** Well-formed boards and sessions *)

(** 0, or a power of two that is at least 2. *)
Definition isTileValue (v : Z) : bool :=
  (v =? 0) || ((2 <=? v) && (2 ^ Z.log2 v =? v)).

Definition validBoard (b : Board) : Prop :=
  Forall (fun row => Forall (fun v => isTileValue v = true) row) b.

(** The number of non-zero values of a line. *)
Definition tilesIn (l : list Z) : nat := length (removeZeros l).

(** The number of tiles on a board. *)
Definition tileCount (b : Board) : nat := tilesIn (concat b).

(** The initial values of the three state cells:
    [useState(() => addRandomTile(addRandomTile(createEmptyBoard())))],
    [useState(0)] and [useState(false)]. *)
Definition initialSession (g : Rng) : option (Session * Rng) :=
  st1 ← addRandomTile createEmptyBoard g;
  st2 ← addRandomTile st1.1 st1.2;
  Some ({| board := st2.1; score := 0; gameOver := false |}, st2.2).

(** What every session of a game satisfies. *)
Definition sessionOk (s : Session) : Prop :=
  is4x4 (board s)
  /\ validBoard (board s)
  /\ (2 <= tileCount (board s))%nat
  /\ hasMoves (board s) = Some (negb (gameOver s)).

(** * Properties *)

(** ** Binary64 rounding *)

Local Open Scope Q_scope.

Lemma two_pow_pos (e : Z) : 0 < 2 ^ e.
Proof. by apply Qpower_0_lt. Qed.

Lemma two_pow_succ (e : Z) : 2 ^ (e + 1) == 2 * 2 ^ e.
Proof. rewrite Qpower_plus by done. simpl. ring. Qed.

Lemma two_pow_inv (q : Z) : 2 ^ q * 2 ^ (- q) == 1.
Proof. rewrite <- Qpower_plus by done. by rewrite Z.add_opp_diag_r. Qed.

Lemma two_pow_inject (n : Z) : (0 <= n)%Z -> inject_Z (2 ^ n) == 2 ^ n.
Proof. intros Hn. by rewrite Zpower_Qpower. Qed.

Lemma log2_bounds (n : Z) :
  (0 < n)%Z -> 2 ^ Z.log2 n <= inject_Z n /\ inject_Z n < 2 * 2 ^ Z.log2 n.
Proof.
  intros Hn. destruct (Z.log2_spec n Hn) as [Hlo Hhi].
  rewrite <- two_pow_succ, <- !two_pow_inject by (pose proof (Z.log2_nonneg n); lia).
  rewrite <- Zle_Qle, <- Zlt_Qlt. by rewrite <- Z.add_1_r in Hhi.
Qed.

Lemma Qexponent_spec (x : Q) :
  0 < x -> 2 ^ Qexponent x <= x /\ x < 2 ^ (Qexponent x + 1).
Proof.
  intros Hx. unfold Qexponent.
  set (lp := Z.log2 (Qnum x)). set (ld := Z.log2 (Z.pos (Qden x))).
  assert (Hp : (0 < Qnum x)%Z).
  { destruct x as [p d]. unfold Qlt in Hx. simpl in *. lia. }
  destruct (log2_bounds (Qnum x) Hp) as [Hp1 Hp2]. fold lp in Hp1, Hp2.
  destruct (log2_bounds (Z.pos (Qden x)) eq_refl) as [Hd1 Hd2]. fold ld in Hd1, Hd2.
  assert (Hxd : x * inject_Z (Z.pos (Qden x)) == inject_Z (Qnum x)).
  { destruct x as [p d]. unfold Qeq, Qmult, inject_Z. simpl. lia. }
  assert (HE : 2 ^ (lp - ld) * 2 ^ ld == 2 ^ lp).
  { rewrite <- Qpower_plus by done. by replace (lp - ld + ld)%Z with lp by lia. }
  pose proof (two_pow_pos ld) as HB. pose proof (two_pow_pos (lp - ld)) as HEpos.
  set (E := 2 ^ (lp - ld)) in *. set (B := 2 ^ ld) in *. set (A := 2 ^ lp) in *.
  set (D := inject_Z (Z.pos (Qden x))) in *. set (P := inject_Z (Qnum x)) in *.
  destruct (Qle_bool E x) eqn:Htest.
  - apply Qle_bool_iff in Htest. split; [done|].
    rewrite two_pow_succ. fold E. nra.
  - assert (Hlt : x < E).
    { apply Qnot_le_lt. intros H. apply Qle_bool_iff in H. congruence. }
    replace (lp - ld - 1 + 1)%Z with (lp - ld)%Z by lia. fold E. split; [|done].
    assert (Hhalf : 2 * 2 ^ (lp - ld - 1) == E).
    { rewrite <- two_pow_succ. unfold E. by replace (lp - ld - 1 + 1)%Z with (lp - ld)%Z by lia. }
    nra.
Qed.

Lemma roundHalfEven_floor (n : Q) :
  (Qfloor n <= roundHalfEven n)%Z
  /\ ((roundHalfEven n = Qfloor n)
      \/ (roundHalfEven n = (Qfloor n + 1)%Z /\ inject_Z (Qfloor n) + (1 # 2) <= n)).
Proof.
  unfold roundHalfEven.
  destruct (Qcompare_spec (n - inject_Z (Qfloor n)) (1 # 2)) as [H|H|H].
  - destruct (Z.even (Qfloor n)); [split; [lia|by left]|].
    split; [lia|]. right. split; [done|]. lra.
  - split; [lia|by left].
  - split; [lia|]. right. split; [done|]. lra.
Qed.

Lemma roundHalfEven_ge (n : Q) (m : Z) : inject_Z m <= n -> (m <= roundHalfEven n)%Z.
Proof.
  intros H. destruct (roundHalfEven_floor n) as [Hf _].
  apply Qfloor_resp_le in H. rewrite Qfloor_Z in H. lia.
Qed.

Lemma roundHalfEven_le (n : Q) (m : Z) : n <= inject_Z m -> (roundHalfEven n <= m)%Z.
Proof.
  intros H. pose proof (Qfloor_le n) as Hfl.
  destruct (roundHalfEven_floor n) as [_ [->|[-> Hhalf]]].
  - rewrite Zle_Qle. lra.
  - assert (inject_Z (Qfloor n) < inject_Z m) as Hlt by lra.
    rewrite <- Zlt_Qlt in Hlt. lia.
Qed.

Lemma roundHalfEven_near (n : Q) (m : Z) :
  (m <= roundHalfEven n)%Z -> inject_Z m - (1 # 2) <= n.
Proof.
  intros H. pose proof (Qfloor_le n) as Hfl.
  destruct (roundHalfEven_floor n) as [_ [Heq|[Heq Hhalf]]]; rewrite Heq in H.
  - rewrite Zle_Qle in H. lra.
  - assert (inject_Z m <= inject_Z (Qfloor n) + 1); [|lra].
    rewrite Zle_Qle, inject_Z_plus in H. exact H.
Qed.

Lemma binary64pos_eq (x : Q) :
  binary64pos x = inject_Z (roundHalfEven (x / 2 ^ ulpExponent x)) * 2 ^ ulpExponent x.
Proof. reflexivity. Qed.

Lemma ulpExponent_small (x : Q) :
  0 < x -> x < 2 ^ 53 -> (ulpExponent x <= 0)%Z.
Proof.
  intros Hx Hlt. destruct (Qexponent_spec x Hx) as [Hlo _].
  assert (Qexponent x < 53)%Z.
  { apply (Qpower_lt_compat_l_inv 2); [|done]. by eapply Qle_lt_trans. }
  unfold ulpExponent. lia.
Qed.

Lemma half_ulp (x : Q) :
  0 < x -> 2 ^ ulpExponent x * (1 # 2) <= x * 2 ^ (-53)
           \/ 2 ^ ulpExponent x * (1 # 2) < 2 ^ (-53).
Proof.
  intros Hx. destruct (Qexponent_spec x Hx) as [Hlo _]. unfold ulpExponent.
  destruct (Z.max_spec (Qexponent x) (-1022)) as [[Hlt ->]|[Hle ->]].
  - right. reflexivity.
  - left. replace (Qexponent x - 52)%Z with (Qexponent x + -53 + 1)%Z by lia.
    rewrite two_pow_succ, Qpower_plus by done.
    pose proof (two_pow_pos (-53)). nra.
Qed.

Lemma scaled_integer (x : Q) (j : Z) :
  (ulpExponent x <= 0)%Z ->
  inject_Z (j * 2 ^ (- ulpExponent x)) == inject_Z j * 2 ^ (- ulpExponent x).
Proof.
  intros Hq. rewrite inject_Z_mult, two_pow_inject by lia. reflexivity.
Qed.

Lemma div_two_pow (x : Q) (q : Z) : x / 2 ^ q == x * 2 ^ (- q).
Proof. unfold Qdiv. by rewrite Qpower_opp. Qed.

Lemma binary64pos_ge (x : Q) (j : Z) :
  0 < x -> x < 2 ^ 53 -> inject_Z j <= x -> inject_Z j <= binary64pos x.
Proof.
  intros Hx Hlt Hj. rewrite binary64pos_eq.
  pose proof (ulpExponent_small x Hx Hlt) as Hq.
  set (q := ulpExponent x) in *.
  pose proof (two_pow_pos q) as Hs. pose proof (two_pow_pos (- q)) as Ht.
  pose proof (two_pow_inv q) as Hst.
  assert (Hm : (j * 2 ^ (- q) <= roundHalfEven (x / 2 ^ q))%Z).
  { apply roundHalfEven_ge. unfold q. rewrite scaled_integer by done. fold q.
    rewrite div_two_pow. nra. }
  rewrite Zle_Qle in Hm. unfold q in Hm. rewrite scaled_integer in Hm by done. fold q in Hm.
  nra.
Qed.

Lemma binary64pos_le (x : Q) (j : Z) :
  0 < x -> x < 2 ^ 53 -> x <= inject_Z j -> binary64pos x <= inject_Z j.
Proof.
  intros Hx Hlt Hj. rewrite binary64pos_eq.
  pose proof (ulpExponent_small x Hx Hlt) as Hq.
  set (q := ulpExponent x) in *.
  pose proof (two_pow_pos q) as Hs. pose proof (two_pow_pos (- q)) as Ht.
  pose proof (two_pow_inv q) as Hst.
  assert (Hm : (roundHalfEven (x / 2 ^ q) <= j * 2 ^ (- q))%Z).
  { apply roundHalfEven_le. unfold q. rewrite scaled_integer by done. fold q.
    rewrite div_two_pow. nra. }
  rewrite Zle_Qle in Hm. unfold q in Hm. rewrite scaled_integer in Hm by done. fold q in Hm.
  nra.
Qed.

Lemma binary64pos_near (x : Q) (j : Z) :
  0 < x -> x < 2 ^ 53 -> (1 <= j)%Z -> inject_Z j <= binary64pos x ->
  inject_Z j * (1 - 2 ^ (-53)) < x.
Proof.
  intros Hx Hlt Hj1 Hj. rewrite binary64pos_eq in Hj.
  pose proof (ulpExponent_small x Hx Hlt) as Hq.
  pose proof (half_ulp x Hx) as Hhalf.
  set (q := ulpExponent x) in *.
  pose proof (two_pow_pos q) as Hs. pose proof (two_pow_pos (- q)) as Ht.
  pose proof (two_pow_inv q) as Hst.
  assert (Hm : (j * 2 ^ (- q) <= roundHalfEven (x / 2 ^ q))%Z).
  { rewrite Zle_Qle. unfold q. rewrite scaled_integer by done. fold q.
    pose proof (Qmult_le_compat_r _ _ (2 ^ (- q)) Hj (Qlt_le_weak _ _ Ht)) as Hjt.
    rewrite <- Qmult_assoc, Hst, Qmult_1_r in Hjt. exact Hjt. }
  apply roundHalfEven_near in Hm.
  unfold q in Hm. rewrite scaled_integer in Hm by done. fold q in Hm.
  rewrite div_two_pow in Hm.
  assert (Hx' : inject_Z j - 2 ^ q * (1 # 2) <= x) by nra.
  assert (Hj1' : 1 <= inject_Z j) by (by rewrite <- (Zle_Qle 1)).
  assert (Hc : 0 < 2 ^ (-53) /\ 2 ^ (-53) < 1) by (split; reflexivity).
  destruct Hhalf as [Hhalf|Hhalf]; nra.
Qed.

Lemma binary64_positive (x : Q) : 0 < x -> binary64 x = binary64pos x.
Proof. intros Hx. unfold binary64. by rewrite (proj1 (Qgt_alt x 0) Hx). Qed.

Lemma binary64_zero (x : Q) : x == 0 -> binary64 x = 0.
Proof. intros Hx. unfold binary64. by rewrite (proj1 (Qeq_alt x 0) Hx). Qed.

(** The index [Math.floor(u * k)] for a draw [u] and [k] candidates. *)
Lemma index_bounds (u : Q) (k : Z) :
  0 <= u -> u <= 1 - 2 ^ (-53) -> (0 < k <= 2 ^ 53)%Z ->
  let j := Qfloor (binary64 (u * inject_Z k)) in
  (0 <= j < k)%Z
  /\ inject_Z j * (1 - 2 ^ (-53)) <= u * inject_Z k
  /\ u * inject_Z k < inject_Z (j + 1).
Proof.
  intros Hu0 Hu1 [Hk0 Hk1] j.
  assert (Hc : 0 < 2 ^ (-53) /\ 2 ^ (-53) < 1) by (split; reflexivity).
  assert (HkQ : 0 < inject_Z k /\ inject_Z k <= 2 ^ 53).
  { split; [by rewrite <- (Zlt_Qlt 0)|].
    rewrite <- (two_pow_inject 53) by lia. by rewrite <- Zle_Qle. }
  destruct Hc as [Hc0 Hc1]. destruct HkQ as [HkQ0 HkQ1].
  set (c := 2 ^ (-53)) in *. set (T := 2 ^ 53) in *.
  set (x := u * inject_Z k) in *.
  assert (Hx0 : 0 <= x) by (unfold x; nra).
  assert (Hxk : x <= (1 - c) * inject_Z k) by (unfold x; nra).
  destruct (Qle_lt_or_eq _ _ Hx0) as [Hpos|Hzero].
  - assert (Hlt : x < T) by nra.
    unfold j. rewrite (binary64_positive x Hpos).
    set (F := binary64pos x).
    pose proof (binary64pos_ge x 0 Hpos Hlt Hx0) as HF0.
    pose proof (Qfloor_le F) as Hfl.
    assert (Hj0 : (0 <= Qfloor F)%Z).
    { apply Qfloor_resp_le in HF0. by rewrite Qfloor_Z in HF0. }
    assert (Hlow : inject_Z (Qfloor F) * (1 - c) <= x).
    { destruct (decide (1 <= Qfloor F)%Z) as [H1|H1].
      - apply Qlt_le_weak. by apply binary64pos_near.
      - assert (Qfloor F = 0%Z) as -> by lia. change (0 * (1 - c) <= x). lra. }
    assert (Hup : x < inject_Z (Qfloor F + 1)).
    { apply Qnot_le_lt. intros Hge.
      apply (binary64pos_ge x _ Hpos Hlt) in Hge. fold F in Hge.
      apply Qfloor_resp_le in Hge. rewrite Qfloor_Z in Hge. lia. }
    split; [|done]. split; [done|].
    destruct (decide (1 <= Qfloor F)%Z) as [H1|H1]; [|lia].
    pose proof (binary64pos_near x _ Hpos Hlt H1 Hfl) as Hnear. fold c in Hnear.
    assert (Hprod : inject_Z (Qfloor F) * (1 - c) < inject_Z k * (1 - c)) by lra.
    apply Qmult_lt_r in Hprod; [|lra]. by rewrite Zlt_Qlt.
  - unfold j. rewrite (binary64_zero x) by done.
    change (Qfloor 0) with 0%Z. split; [lia|]. change (inject_Z 0) with 0.
    split; [lra|]. rewrite <- Hzero. reflexivity.
Qed.

(** A non-negative integer below 2^53 is a binary64 number. *)
Lemma binary64_integer (z : Z) :
  (0 <= z < 2 ^ 53)%Z -> binary64 (inject_Z z) == inject_Z z.
Proof.
  intros [Hz0 Hz1]. destruct (decide (z = 0%Z)) as [->|Hnz]; [reflexivity|].
  assert (Hpos : 0 < inject_Z z) by (rewrite <- (Zlt_Qlt 0); lia).
  assert (Hlt : inject_Z z < 2 ^ 53).
  { rewrite <- (two_pow_inject 53) by lia. by rewrite <- Zlt_Qlt. }
  rewrite (binary64_positive _ Hpos). apply Qle_antisym.
  - apply binary64pos_le; [done..|]. apply Qle_refl.
  - apply binary64pos_ge; [done..|]. apply Qle_refl.
Qed.

(** Every binary64 number of [0,1) is at most [1 - 2^-53]. *)
Lemma binary64_below_one (u : Q) :
  0 <= u -> u < 1 -> binary64 u == u -> u <= 1 - 2 ^ (-53).
Proof.
  intros Hu0 Hu1 Hfix.
  assert (Hc : 0 < 2 ^ (-53) /\ 2 ^ (-53) < 1) by (split; reflexivity).
  destruct (Qle_lt_or_eq _ _ Hu0) as [Hpos|Hzero]; [|lra].
  rewrite (binary64_positive u Hpos), binary64pos_eq in Hfix.
  destruct (Qexponent_spec u Hpos) as [Hlo Hhi].
  assert (He : (Qexponent u < 0)%Z).
  { apply (Qpower_lt_compat_l_inv 2); [|done]. by eapply Qle_lt_trans. }
  destruct (decide (Qexponent u = (-1)%Z)) as [Heq|Hne].
  - unfold ulpExponent in Hfix. rewrite Heq in Hfix.
    change (Z.max (-1) (-1022) - 52)%Z with (-53)%Z in Hfix.
    set (N := roundHalfEven (u / 2 ^ (-53))) in *.
    assert (HN : (N < 2 ^ 53)%Z).
    { rewrite Zlt_Qlt, two_pow_inject by lia.
      pose proof (two_pow_inv (-53)) as Hinv. change (- -53)%Z with 53%Z in Hinv.
      pose proof (two_pow_pos 53). nra. }
    assert (HN' : inject_Z N <= 2 ^ 53 - 1).
    { apply (Qle_trans _ (inject_Z (2 ^ 53 - 1))); [rewrite <- Zle_Qle; lia|].
      replace (2 ^ 53 - 1)%Z with (2 ^ 53 + -1)%Z by lia.
      rewrite inject_Z_plus, two_pow_inject by lia. apply Qle_refl. }
    pose proof (two_pow_inv (-53)) as Hinv. change (- -53)%Z with 53%Z in Hinv.
    nra.
  - assert (Hhalf : 2 ^ (Qexponent u + 1) <= 2 ^ (-1)).
    { apply Qpower_le_compat_l; [lia|done]. }
    assert (2 ^ (-1) == 1 # 2) by reflexivity.
    assert (2 ^ (-53) <= 1 # 2) by (by compute).
    lra.
Qed.

(** The parts of [0,1) that lead to different indices do not overlap. *)
Lemma index_unique (x : Q) (j i : Z) :
  inject_Z j * (1 - 2 ^ (-53)) <= x -> x < inject_Z (j + 1) ->
  inject_Z i <= x -> x < inject_Z (i + 1) * (1 - 2 ^ (-53)) ->
  j = i.
Proof.
  intros Hj1 Hj2 Hi1 Hi2.
  assert (Hc : 0 < 1 - 2 ^ (-53)) by reflexivity.
  set (c := 1 - 2 ^ (-53)) in *.
  assert (H1 : inject_Z j * c < inject_Z (i + 1) * c) by lra.
  apply Qmult_lt_r in H1; [|done]. rewrite <- Zlt_Qlt in H1.
  assert (H2 : inject_Z i < inject_Z (j + 1)) by lra.
  rewrite <- Zlt_Qlt in H2. lia.
Qed.

(** The largest draw. *)
Lemma maxDraw_eq : (9007199254740991 # 9007199254740992) == 1 - 2 ^ (-53).
Proof. reflexivity. Qed.

Local Close Scope Q_scope.

(** ** The merge loop *)


Lemma mergeStep_skip filtered merged i :
  mergeStep filtered (merged, true) i = (merged, false).
Proof. reflexivity. Qed.

Lemma mergeStep_head (p l' : list Z) (a : Z) merged :
  mergeStep (p ++ a :: l') (merged, false) (length p)
  = match l' with
    | b :: _ => if bool_decide (a = b) then (merged ++ [a * 2], true)
                else (merged ++ [a], false)
    | [] => (merged ++ [a], false)
    end.
Proof.
  unfold mergeStep.
  rewrite (list_lookup_middle p l' a (length p) eq_refl).
  rewrite lookup_app_r by lia.
  replace (length p + 1 - length p)%nat with 1%nat by lia.
  destruct l' as [|b l'']; cbn [lookup list_lookup].
  - rewrite bool_decide_eq_false_2; [done|]. rewrite length_app. simpl. lia.
  - rewrite bool_decide_eq_true_2 by (rewrite length_app; simpl; lia).
    cbn [andb]. destruct (decide (a = b)) as [->|Hne].
    + by rewrite !bool_decide_eq_true_2.
    + by rewrite !bool_decide_eq_false_2 by congruence.
Qed.

Lemma snoc_cons (p l : list Z) (x : Z) : p ++ x :: l = (p ++ [x]) ++ l.
Proof. by rewrite <- app_assoc. Qed.

Lemma length_snoc (p : list Z) (x : Z) : S (length p) = length (p ++ [x]).
Proof. rewrite length_app. simpl. lia. Qed.

Lemma mergeLoop_spec (n : nat) :
  forall l : list Z, (length l <= n)%nat ->
  forall (p merged : list Z),
    (fold_left (mergeStep (p ++ l)) (seq (length p) (length l)) (merged, false)).1
      = merged ++ mergePairs l
    /\ forall x,
      (fold_left (mergeStep (p ++ x :: l)) (seq (length p) (S (length l))) (merged, true)).1
      = merged ++ mergePairs l.
Proof.
  induction n as [|n IH]; intros l Hl p merged.
  - destruct l; [|simpl in Hl; lia]. simpl. rewrite app_nil_r. auto.
  - assert (Hfirst : forall p merged,
      (fold_left (mergeStep (p ++ l)) (seq (length p) (length l)) (merged, false)).1
      = merged ++ mergePairs l).
    { clear p merged. intros p merged.
      destruct l as [|a l']; [simpl; by rewrite app_nil_r|].
      simpl in Hl. cbn [length seq fold_left].
      rewrite mergeStep_head.
      destruct l' as [|b l'']; [reflexivity|].
      simpl in Hl. cbn [mergePairs].
      rewrite (snoc_cons p), (length_snoc p a).
      destruct (bool_decide (a = b)) eqn:Hab.
      - apply bool_decide_eq_true_1 in Hab as ->.
        destruct (IH l'' ltac:(lia) (p ++ [b]) (merged ++ [b * 2])) as [_ H2].
        cbn [length]. rewrite (H2 b), <- app_assoc. simpl. do 3 f_equal. lia.
      - destruct (IH (b :: l'') ltac:(simpl; lia) (p ++ [a]) (merged ++ [a])) as [H1 _].
        rewrite H1, <- app_assoc. reflexivity. }
    split; [apply Hfirst|].
    intros x. cbn [seq fold_left]. rewrite mergeStep_skip.
    rewrite (snoc_cons p), (length_snoc p x).
    apply Hfirst.
Qed.

Lemma mergeLoop_mergePairs (filtered : list Z) :
  (fold_left (mergeStep filtered) (seq 0 (length filtered)) ([], false)).1
  = mergePairs filtered.
Proof.
  destruct (mergeLoop_spec (length filtered) filtered (le_n _) [] []) as [H _].
  exact H.
Qed.

Lemma padLoop_fuel (fuel : nat) (merged : list Z) :
  (SIZE - length merged <= fuel)%nat ->
  padLoop fuel merged = padTo SIZE merged.
Proof.
  revert merged. induction fuel as [|fuel IH]; intros merged Hf; simpl.
  - unfold padTo. replace (SIZE - length merged)%nat with 0%nat by lia.
    simpl. by rewrite app_nil_r.
  - destruct (Nat.ltb_spec (length merged) SIZE) as [Hlt|Hge].
    + rewrite IH by (rewrite length_app; simpl; lia).
      unfold padTo. rewrite length_app. simpl.
      replace (SIZE - length merged)%nat with (S (SIZE - (length merged + 1)))%nat by lia.
      simpl. by rewrite <- app_assoc.
    + unfold padTo. replace (SIZE - length merged)%nat with 0%nat by lia.
      simpl. by rewrite app_nil_r.
Qed.

(** The code and the three steps of the specification agree on every
    line. *)
Lemma slideAndMerge_steps (line : list Z) :
  slideAndMerge line = slideAndMergeLine line.
Proof.
  unfold slideAndMerge, slideAndMergeLine, removeZeros.
  rewrite mergeLoop_mergePairs. apply padLoop_fuel. lia.
Qed.


(** ** Lines *)

Arguments slideAndMerge : simpl never.

Lemma mergePairs_length (l : list Z) : (length (mergePairs l) <= length l)%nat.
Proof.
  induction l as [l IH] using (induction_ltof1 _ (@length Z)); unfold ltof in IH.
  destruct l as [|a [|b rest]]; simpl; try lia.
  case_bool_decide; simpl.
  - specialize (IH rest ltac:(simpl; lia)). lia.
  - specialize (IH (b :: rest) ltac:(simpl; lia)). simpl in IH. lia.
Qed.

Lemma removeZeros_length (l : list Z) : (length (removeZeros l) <= length l)%nat.
Proof. apply length_filter. Qed.

Lemma padTo_length (n : nat) (l : list Z) :
  (length l <= n)%nat -> length (padTo n l) = n.
Proof. intros H. unfold padTo. rewrite length_app, length_replicate. lia. Qed.

Lemma slideAndMerge_length (line : list Z) :
  (length line <= SIZE)%nat -> length (slideAndMerge line) = SIZE.
Proof.
  intros H. rewrite slideAndMerge_steps. apply padTo_length.
  pose proof (mergePairs_length (removeZeros line)).
  pose proof (removeZeros_length line). lia.
Qed.

(** C1.  For every line of four integers [slideAndMerge] returns the line
    obtained by removing the zeros in order, merging adjacent equal pairs
    from the left (a merged pair is consumed, its sum is not merged again in
    the same pass) and padding with zeros to length four; the four examples
    of the specification hold. *)
Theorem slideAndMerge_spec :
  (forall line : list Z, length line = SIZE ->
     slideAndMerge line = padTo SIZE (mergePairs (removeZeros line))
     /\ length (slideAndMerge line) = SIZE)
  /\ slideAndMerge [2; 2; 2; 2] = [4; 4; 0; 0]
  /\ slideAndMerge [2; 2; 2; 0] = [4; 2; 0; 0]
  /\ slideAndMerge [0; 2; 0; 2] = [4; 0; 0; 0]
  /\ slideAndMerge [2; 4; 2; 4] = [2; 4; 2; 4].
Proof.
  split; [|by repeat split].
  intros line Hlen. split.
  - apply slideAndMerge_steps.
  - apply slideAndMerge_length. lia.
Qed.

Lemma slideAndMerge_spec_witness :
  slideAndMerge [8; 0; 8; 16] = padTo SIZE (mergePairs (removeZeros [8; 0; 8; 16]))
  /\ length (slideAndMerge [8; 0; 8; 16]) = SIZE.
Proof. apply (proj1 slideAndMerge_spec [8; 0; 8; 16]). reflexivity. Defined.

(** ** Boards *)

Ltac explode4 l H :=
  destruct l as [|? [|? [|? [|? [|? ?]]]]]; try discriminate H.

(** Name the sixteen cells of a board known to be 4x4. *)
Ltac board_cells b Hb :=
  let Hlen := fresh "Hlen" in
  let Hrows := fresh "Hrows" in
  destruct Hb as [Hlen Hrows];
  explode4 b Hlen; clear Hlen;
  repeat match goal with
         | H : Forall _ (_ :: _) |- _ =>
             let Hr := fresh "Hr" in
             apply Forall_cons_1 in H as [Hr H]
         end;
  clear Hrows; cbv beta in *;
  repeat match goal with
         | H : length ?row = SIZE |- _ => explode4 row H; clear H
         end.

Lemma is4x4_cells (a0 a1 a2 a3 b0 b1 b2 b3 c0 c1 c2 c3 d0 d1 d2 d3 : Z) :
  is4x4 [[a0; a1; a2; a3]; [b0; b1; b2; b3]; [c0; c1; c2; c3]; [d0; d1; d2; d3]].
Proof. split; [reflexivity|]. by repeat constructor. Qed.

Lemma slideRows_map (b : Board) :
  length b = SIZE ->
  slideRows b = Some (map slideAndMerge b, existsb rowChanged b).
Proof.
  intros Hlen. explode4 b Hlen.
  unfold slideRows. cbn -[some]. fold (rowChanged l) (rowChanged l0) (rowChanged l1) (rowChanged l2).
  do 2 f_equal.
  destruct (rowChanged l), (rowChanged l0), (rowChanged l1), (rowChanged l2); reflexivity.
Qed.

Lemma rowChanged_iff (row : list Z) :
  length row = SIZE -> rowChanged row = true <-> slideAndMerge row ≠ row.
Proof.
  intros Hlen. unfold rowChanged.
  pose proof (slideAndMerge_length row ltac:(lia)) as Hm.
  destruct (slideAndMerge row) as [|x0 [|x1 [|x2 [|x3 [|? ?]]]]]; try discriminate Hm.
  explode4 row Hlen. cbn.
  rewrite !orb_true_iff, !negb_true_iff, !bool_decide_eq_false.
  split.
  - intros H [= -> -> -> ->]. destruct H as [H|[H|[H|[H|H]]]]; done.
  - intros H.
    destruct (decide (x0 = z)) as [->|]; [|left; congruence].
    destruct (decide (x1 = z0)) as [->|]; [|right; left; congruence].
    destruct (decide (x2 = z1)) as [->|]; [|right; right; left; congruence].
    destruct (decide (x3 = z2)) as [->|]; [|right; right; right; left; congruence].
    done.
Qed.

Lemma is4x4_map_slide (b : Board) : is4x4 b -> is4x4 (map slideAndMerge b).
Proof.
  intros [Hlen Hrows]. split; [by rewrite length_map|].
  apply Forall_fmap. eapply Forall_impl; [|exact Hrows].
  intros row Hr. simpl in *. apply slideAndMerge_length. lia.
Qed.

Lemma is4x4_reverseRows (b : Board) : is4x4 b -> is4x4 (reverseRows b).
Proof.
  intros [Hlen Hrows]. split; [by unfold reverseRows; rewrite length_map|].
  apply Forall_fmap. eapply Forall_impl; [|exact Hrows].
  intros row Hr. simpl in *. by rewrite length_rev.
Qed.

Lemma reverseRows_involutive (b : Board) : reverseRows (reverseRows b) = b.
Proof.
  unfold reverseRows. rewrite map_map. induction b as [|row b IH]; simpl; [done|].
  by rewrite rev_involutive, IH.
Qed.

Lemma cloneBoard_id (b : Board) : cloneBoard b = b.
Proof. unfold cloneBoard. apply map_id. Qed.

Lemma transpose_4x4 (b : Board) :
  is4x4 b ->
  exists t, transpose b = Some t /\ is4x4 t /\ transpose t = Some b
            /\ forall r c, cellAt t r c = cellAt b c r.
Proof.
  intros Hb. board_cells b Hb.
  eexists. split; [reflexivity|]. split; [apply is4x4_cells|].
  split; [reflexivity|].
  intros r c.
  destruct r as [|[|[|[|r]]]]; destruct c as [|[|[|[|c]]]]; reflexivity.
Qed.

(** ** The move as a pipeline *)

Lemma move_pipeline (b : Board) (d : Direction) :
  is4x4 b ->
  exists t res,
    toLeft d b = Some t /\ is4x4 t /\ fromLeft d t = Some b
    /\ fromLeft d (map slideAndMerge t) = Some res /\ is4x4 res
    /\ toLeft d res = Some (map slideAndMerge t)
    /\ move b d = Some {| newBoard := res; moved := existsb rowChanged t |}.
Proof.
  intros Hb. unfold move. rewrite cloneBoard_id.
  destruct d; cbn [toLeft fromLeft].
  - (* up *)
    destruct (transpose_4x4 b Hb) as (t & Ht & Ht4 & Htb & _).
    destruct (transpose_4x4 _ (is4x4_map_slide t Ht4)) as (res & Hres & Hres4 & Hback & _).
    exists t, res. rewrite Ht. cbn [mbind option_bind].
    rewrite (slideRows_map t (proj1 Ht4)). cbn [mbind option_bind fst snd].
    rewrite Hres. by cbn.
  - (* down *)
    destruct (transpose_4x4 b Hb) as (t & Ht & Ht4 & Htb & _).
    pose proof (is4x4_reverseRows t Ht4) as Hrt4.
    pose proof (is4x4_reverseRows _ (is4x4_map_slide _ Hrt4)) as Hs4.
    destruct (transpose_4x4 _ Hs4) as (res & Hres & Hres4 & Hback & _).
    exists (reverseRows t), res. rewrite Ht. cbn [mbind option_bind].
    rewrite (slideRows_map _ (proj1 Hrt4)). cbn [mbind option_bind fst snd].
    rewrite Hres, Hback, !reverseRows_involutive. cbn.
    by rewrite reverseRows_involutive.
  - (* left *)
    exists b, (map slideAndMerge b).
    rewrite (slideRows_map b (proj1 Hb)). cbn [mbind option_bind fst snd].
    repeat match goal with |- _ /\ _ => split end; try done.
    by apply is4x4_map_slide.
  - (* right *)
    pose proof (is4x4_reverseRows b Hb) as Hr4.
    exists (reverseRows b), (reverseRows (map slideAndMerge (reverseRows b))).
    rewrite (slideRows_map _ (proj1 Hr4)). cbn [mbind option_bind fst snd].
    rewrite !reverseRows_involutive.
    repeat match goal with |- _ /\ _ => split end; try done.
    by apply is4x4_reverseRows, is4x4_map_slide.
Qed.

(** C2.  On a 4x4 board [move] returns, and its board is the one obtained by
    transforming into the orientation where the direction becomes left,
    sliding every row and transforming back: left slides the rows as they
    are, right reverses each row around the slide, up transposes around the
    slide, down transposes and reverses around the slide. *)
Theorem move_by_orientation (b : Board) (d : Direction) :
  is4x4 b ->
  exists res,
    move b d = Some res
    /\ moveBySpec b d = Some (newBoard res)
    /\ match d with
       | left => Some (newBoard res) = Some (map slideAndMerge b)
       | right =>
           Some (newBoard res)
           = Some (reverseRows (map slideAndMerge (reverseRows b)))
       | up =>
           Some (newBoard res)
           = (t ← transpose b; transpose (map slideAndMerge t))
       | down =>
           Some (newBoard res)
           = (t ← transpose b;
              transpose (reverseRows (map slideAndMerge (reverseRows t))))
       end.
Proof.
  intros Hb.
  destruct (move_pipeline b d Hb) as (t & res & Ht & _ & _ & Hres & _ & _ & Hmove).
  eexists. split; [exact Hmove|]. cbn [newBoard].
  assert (Hspec : moveBySpec b d = Some res).
  { unfold moveBySpec. rewrite Ht. exact Hres. }
  split; [exact Hspec|].
  rewrite <- Hspec. unfold moveBySpec. by destruct d; cbn; try destruct (transpose b).
Qed.

Lemma move_by_orientation_witness :
  exists res,
    move [[2; 2; 4; 0]; [0; 0; 0; 0]; [0; 2; 0; 0]; [0; 2; 0; 8]] down = Some res
    /\ newBoard res = [[0; 0; 0; 0]; [0; 0; 0; 0]; [0; 2; 0; 0]; [2; 4; 4; 8]].
Proof.
  destruct (move_by_orientation
              [[2; 2; 4; 0]; [0; 0; 0; 0]; [0; 2; 0; 0]; [0; 2; 0; 8]] down
              (is4x4_cells _ _ _ _ _ _ _ _ _ _ _ _ _ _ _ _))
    as (res & Hmove & Hspec & _).
  exists res. split; [exact Hmove|].
  assert (E : moveBySpec [[2; 2; 4; 0]; [0; 0; 0; 0]; [0; 2; 0; 0]; [0; 2; 0; 8]] down
              = Some [[0; 0; 0; 0]; [0; 0; 0; 0]; [0; 2; 0; 0]; [2; 4; 4; 8]])
    by (vm_compute; reflexivity).
  rewrite E in Hspec. by injection Hspec.
Defined.

(** ** The [moved] flag *)

Lemma moved_iff_changed (t : Board) :
  Forall (fun row => length row = SIZE) t ->
  existsb rowChanged t = true <-> map slideAndMerge t ≠ t.
Proof.
  induction 1 as [|row t Hrow Ht IH]; simpl.
  - split; [discriminate|congruence].
  - rewrite orb_true_iff, (rowChanged_iff row Hrow), IH. split.
    + intros [H|H] [= H1 H2]; by apply H.
    + intros H. destruct (decide (slideAndMerge row = row)) as [Heq|]; [|by left].
      right. intros Heq'. apply H. by rewrite Heq, Heq'.
Qed.

Lemma list_differs {A : Type} `{EqDecision A} (l l' : list A) :
  length l = length l' -> l ≠ l' ->
  exists i x y, l !! i = Some x /\ l' !! i = Some y /\ x ≠ y.
Proof.
  revert l'. induction l as [|a l IH]; intros [|a' l'] Hlen Hne;
    try discriminate Hlen; [done|].
  destruct (decide (a = a')) as [->|Ha].
  - destruct (IH l') as (i & x & y & H1 & H2 & H3).
    + simpl in Hlen. lia.
    + intros ->. by apply Hne.
    + by exists (S i), x, y.
  - by exists 0%nat, a, a'.
Qed.

Lemma is4x4_lookup (b : Board) (r : nat) (row : list Z) :
  is4x4 b -> b !! r = Some row -> (r < SIZE)%nat /\ length row = SIZE.
Proof.
  intros [Hlen Hrows] Hr. split.
  - rewrite <- Hlen. by eapply lookup_lt_Some.
  - rewrite Forall_lookup in Hrows. by eapply Hrows.
Qed.

Lemma board_differs_cell (b b' : Board) :
  is4x4 b -> is4x4 b' -> b ≠ b' ->
  exists r c, (r < SIZE)%nat /\ (c < SIZE)%nat /\ cellAt b r c ≠ cellAt b' r c.
Proof.
  intros Hb Hb' Hne.
  destruct (list_differs b b') as (r & x & y & Hx & Hy & Hxy); [|done|].
  { by rewrite (proj1 Hb), (proj1 Hb'). }
  destruct (is4x4_lookup b r x Hb Hx) as [Hr Hlx].
  destruct (is4x4_lookup b' r y Hb' Hy) as [_ Hly].
  destruct (list_differs x y) as (c & v & w & Hv & Hw & Hvw); [congruence|done|].
  exists r, c. split; [done|]. split.
  - rewrite <- Hlx. by eapply lookup_lt_Some.
  - unfold cellAt. rewrite Hx, Hy. cbn. congruence.
Qed.

(** C3.  On a 4x4 board the flag [moved] returned by [move] is true exactly
    when the returned board differs from the input board in some cell; the
    flag is the row-by-row test made in the transformed orientation. *)
Theorem moved_iff_differs (b : Board) (d : Direction) :
  is4x4 b ->
  exists t res,
    toLeft d b = Some t
    /\ move b d = Some res
    /\ moved res = existsb rowChanged t
    /\ (moved res = true <->
        exists r c, (r < SIZE)%nat /\ (c < SIZE)%nat
                    /\ cellAt (newBoard res) r c ≠ cellAt b r c).
Proof.
  intros Hb.
  destruct (move_pipeline b d Hb)
    as (t & res & Ht & Ht4 & Hback & Hres & Hres4 & Hfwd & Hmove).
  exists t. eexists. split; [done|]. split; [exact Hmove|].
  cbn [moved newBoard]. split; [done|].
  rewrite (moved_iff_changed t (proj2 Ht4)). split.
  - intros Hchg. apply board_differs_cell; [done..|].
    intros ->. apply Hchg. congruence.
  - intros (r & c & _ & _ & Hcell) Heq. apply Hcell.
    rewrite Heq in Hres. congruence.
Qed.

Lemma moved_iff_differs_witness :
  exists res,
    move [[2; 2; 4; 0]; [0; 0; 0; 0]; [0; 2; 0; 0]; [0; 2; 0; 8]] left = Some res
    /\ (moved res = true <->
        exists r c, (r < SIZE)%nat /\ (c < SIZE)%nat
                    /\ cellAt (newBoard res) r c
                       ≠ cellAt [[2; 2; 4; 0]; [0; 0; 0; 0]; [0; 2; 0; 0]; [0; 2; 0; 8]] r c).
Proof.
  destruct (moved_iff_differs
              [[2; 2; 4; 0]; [0; 0; 0; 0]; [0; 2; 0; 0]; [0; 2; 0; 8]] left
              (is4x4_cells _ _ _ _ _ _ _ _ _ _ _ _ _ _ _ _))
    as (t & res & _ & Hmove & _ & Hiff).
  by exists res.
Defined.

(** ** The terminal-state test *)

Lemma anyM_existsb {A : Type} (test : A -> option bool) (f : A -> bool) (l : list A) :
  (forall x, x ∈ l -> test x = Some (f x)) ->
  anyM test l = Some (existsb f l).
Proof.
  induction l as [|x l IH]; intros H; simpl; [done|].
  rewrite (H x) by left. destruct (f x); [done|].
  apply IH. intros y Hy. apply H. by right.
Qed.

Lemma cellAt_Some (b : Board) (r c : nat) (v : Z) :
  is4x4 b -> cellAt b r c = Some v -> (r < SIZE)%nat /\ (c < SIZE)%nat.
Proof.
  intros Hb Hc. unfold cellAt in Hc.
  destruct (b !! r) as [row|] eqn:Hr; [|done]. cbn in Hc.
  destruct (is4x4_lookup b r row Hb Hr) as [Hlt Hlen].
  split; [done|]. rewrite <- Hlen. by eapply lookup_lt_Some.
Qed.

Lemma cellAt_is_Some (b : Board) (r c : nat) :
  is4x4 b -> (r < SIZE)%nat -> (c < SIZE)%nat -> exists v, cellAt b r c = Some v.
Proof.
  intros Hb Hr Hc. unfold cellAt.
  destruct (lookup_lt_is_Some_2 b r) as [row Hrow]; [by rewrite (proj1 Hb)|].
  rewrite Hrow. cbn.
  destruct (is4x4_lookup b r row Hb Hrow) as [_ Hlen].
  apply lookup_lt_is_Some_2. by rewrite Hlen.
Qed.

Lemma hasMovesAt_cells (b : Board) (r c : nat) :
  is4x4 b -> (r < SIZE)%nat ->
  hasMovesAt b r c = Some (mergeableAt b r c).
Proof.
  intros Hb Hr. unfold hasMovesAt, mergeableAt, cellAt.
  destruct (lookup_lt_is_Some_2 b r) as [row Hrow]; [by rewrite (proj1 Hb)|].
  rewrite Hrow. cbn [mbind option_bind].
  destruct (bool_decide (row !! c = Some 0)); [done|].
  destruct (bool_decide (c + 1 < SIZE)%nat && bool_decide (row !! c = row !! (c + 1)%nat));
    [done|].
  cbn [orb]. case_bool_decide as Hr1; [|done].
  destruct (lookup_lt_is_Some_2 b (r + 1)) as [below Hbelow]; [by rewrite (proj1 Hb)|].
  by rewrite Hbelow.
Qed.

Lemma hasMoves_cells (b : Board) :
  is4x4 b ->
  hasMoves b
  = Some (existsb (fun r => existsb (fun c => mergeableAt b r c) (seq 0 SIZE)) (seq 0 SIZE)).
Proof.
  intros Hb. unfold hasMoves. apply anyM_existsb.
  intros r Hr%elem_of_seq. apply anyM_existsb.
  intros c _. apply hasMovesAt_cells; [done|lia].
Qed.

(** C4.  On a 4x4 board [hasMoves] returns true exactly when some cell is
    empty or two horizontally or vertically adjacent cells hold the same
    non-zero value; it returns false exactly when there is neither. *)
Theorem hasMoves_iff (b : Board) :
  is4x4 b ->
  let movable :=
    (exists r c, cellAt b r c = Some 0)
    \/ (exists r c v, v ≠ 0 /\ cellAt b r c = Some v /\ cellAt b r (c + 1)%nat = Some v)
    \/ (exists r c v, v ≠ 0 /\ cellAt b r c = Some v /\ cellAt b (r + 1)%nat c = Some v) in
  exists h, hasMoves b = Some h /\ (h = true <-> movable) /\ (h = false <-> ~ movable).
Proof.
  intros Hb movable. eexists. split; [by apply hasMoves_cells|].
  match goal with |- (?h = true <-> _) /\ _ => set (res := h) end.
  assert (Hiff : res = true <-> movable).
  { unfold res, movable. rewrite existsb_exists. split.
    - intros (r & Hr & Hc). apply existsb_exists in Hc as (c & Hc & Hm).
      apply in_seq in Hr, Hc.
      destruct (cellAt_is_Some b r c Hb) as [v Hv]; [lia..|].
      unfold mergeableAt in Hm.
      destruct (decide (v = 0)) as [->|Hv0]; [left; by exists r, c|].
      right. rewrite Hv in Hm.
      rewrite (bool_decide_eq_false_2 (Some v = Some 0)) in Hm by congruence.
      cbn [orb] in Hm. apply orb_true_iff in Hm as [Hm|Hm];
        apply andb_true_iff in Hm as [_ Hm]; apply bool_decide_eq_true_1 in Hm.
      + left. by exists r, c, v.
      + right. by exists r, c, v.
    - intros [(r & c & H0)|[(r & c & v & Hv0 & Hv & Hv')|(r & c & v & Hv0 & Hv & Hv')]].
      + destruct (cellAt_Some b r c 0 Hb H0).
        exists r. split; [apply in_seq; lia|]. apply existsb_exists.
        exists c. split; [apply in_seq; lia|]. unfold mergeableAt.
        by rewrite (bool_decide_eq_true_2 _ H0).
      + destruct (cellAt_Some b r c v Hb Hv).
        destruct (cellAt_Some b r (c + 1) v Hb Hv').
        exists r. split; [apply in_seq; lia|]. apply existsb_exists.
        exists c. split; [apply in_seq; lia|]. unfold mergeableAt.
        rewrite (bool_decide_eq_true_2 (c + 1 < SIZE)%nat) by done.
        rewrite (bool_decide_eq_true_2 (cellAt b r c = cellAt b r (c + 1)%nat)) by congruence.
        cbn. by rewrite orb_true_r.
      + destruct (cellAt_Some b r c v Hb Hv).
        destruct (cellAt_Some b (r + 1) c v Hb Hv').
        exists r. split; [apply in_seq; lia|]. apply existsb_exists.
        exists c. split; [apply in_seq; lia|]. unfold mergeableAt.
        rewrite (bool_decide_eq_true_2 (r + 1 < SIZE)%nat) by done.
        rewrite (bool_decide_eq_true_2 (cellAt b r c = cellAt b (r + 1)%nat c)) by congruence.
        cbn. by rewrite orb_true_r. }
  split; [done|]. rewrite <- Hiff. by destruct res.
Qed.

Lemma hasMoves_iff_witness :
  hasMoves [[2; 4; 2; 4]; [4; 2; 4; 2]; [2; 4; 2; 4]; [4; 2; 4; 2]] = Some false
  /\ hasMoves [[2; 4; 2; 4]; [4; 2; 4; 2]; [2; 4; 2; 4]; [4; 2; 8; 8]] = Some true.
Proof.
  split.
  - destruct (hasMoves_iff [[2; 4; 2; 4]; [4; 2; 4; 2]; [2; 4; 2; 4]; [4; 2; 4; 2]]
                (is4x4_cells _ _ _ _ _ _ _ _ _ _ _ _ _ _ _ _)) as (h & Hh & _ & _).
    rewrite Hh. vm_compute in Hh. by injection Hh as <-.
  - destruct (hasMoves_iff [[2; 4; 2; 4]; [4; 2; 4; 2]; [2; 4; 2; 4]; [4; 2; 8; 8]]
                (is4x4_cells _ _ _ _ _ _ _ _ _ _ _ _ _ _ _ _)) as (h & Hh & Hiff & _).
    rewrite Hh. f_equal. apply Hiff. right. left.
    exists 3%nat, 2%nat, 8. by repeat split.
Defined.

(** ** Sliding a line twice *)

Lemma removeZeros_nonzero (l : list Z) : Forall (fun v => v ≠ 0) (removeZeros l).
Proof.
  apply Forall_forall. intros v Hv. apply list_elem_of_In in Hv.
  by apply list_elem_of_filter in Hv as [Hv _].
Qed.

Lemma mergePairs_cons2 (a b : Z) (rest : list Z) :
  mergePairs (a :: b :: rest)
  = if bool_decide (a = b) then (a + b) :: mergePairs rest
    else a :: mergePairs (b :: rest).
Proof. reflexivity. Qed.

Lemma mergePairs_nonzero (l : list Z) :
  Forall (fun v => v ≠ 0) l -> Forall (fun v => v ≠ 0) (mergePairs l).
Proof.
  induction l as [l IH] using (induction_ltof1 _ (@length Z)); unfold ltof in IH.
  destruct l as [|a [|b rest]]; intros Hnz; try done.
  apply Forall_cons_1 in Hnz as [Ha Hnz]. rewrite mergePairs_cons2.
  case_bool_decide as Hab.
  - apply Forall_cons_1 in Hnz as [Hb Hnz].
    constructor; [lia|]. apply IH; [simpl; lia|done].
  - constructor; [done|]. apply IH; [simpl; lia|done].
Qed.

Lemma removeZeros_id (l : list Z) : Forall (fun v => v ≠ 0) l -> removeZeros l = l.
Proof.
  unfold removeZeros. induction 1 as [|v l Hv _ IH]; [done|].
  rewrite filter_cons. destruct (decide (v ≠ 0)); [by rewrite IH|done].
Qed.

Lemma removeZeros_padTo (n : nat) (l : list Z) :
  Forall (fun v => v ≠ 0) l -> removeZeros (padTo n l) = l.
Proof.
  intros Hnz. unfold removeZeros, padTo. rewrite list.filter_app.
  fold (removeZeros l). rewrite (removeZeros_id l Hnz).
  induction (n - length l)%nat as [|k IH]; simpl; [by rewrite app_nil_r|].
  rewrite filter_cons. by destruct (decide (0 ≠ 0)).
Qed.

Lemma linePair_cons (a b : Z) (rest : list Z) :
  a ≠ b -> linePair (a :: b :: rest) <-> linePair (b :: rest).
Proof.
  intros Hab. split.
  - intros (i & v & Hv & H1 & H2). destruct i as [|i]; [simpl in *; congruence|].
    by exists i, v.
  - intros (i & v & Hv & H1 & H2). by exists (S i), v.
Qed.

Lemma mergePairs_changes (l : list Z) :
  Forall (fun v => v ≠ 0) l -> mergePairs l ≠ l <-> linePair l.
Proof.
  induction l as [|a l IH]; intros Hnz.
  - split; [done|]. by intros (i & v & _ & H & _).
  - apply Forall_cons_1 in Hnz as [Ha Hnz]. destruct l as [|b rest].
    + split; [done|]. intros (i & v & _ & _ & H). by destruct i.
    + rewrite mergePairs_cons2. case_bool_decide as Hab.
      * subst b. split.
        -- intros _. by exists 0%nat, a.
        -- intros _ [= H _]. lia.
      * rewrite (linePair_cons a b rest Hab), <- (IH Hnz). split.
        -- intros H Heq. apply H. by rewrite Heq.
        -- intros H [= Heq]. by apply H.
Qed.

Lemma linePair_padTo (n : nat) (l : list Z) :
  Forall (fun v => v ≠ 0) l -> linePair (padTo n l) <-> linePair l.
Proof.
  intros Hnz. unfold padTo.
  assert (Hin : forall i v, v ≠ 0 ->
            (l ++ replicate (n - length l) 0) !! i = Some v -> l !! i = Some v).
  { intros i v Hv Hi. apply lookup_app_Some in Hi as [Hi|[_ Hi]]; [done|].
    apply lookup_replicate in Hi as [-> _]. done. }
  split.
  - intros (i & v & Hv & H1 & H2). exists i, v. eauto.
  - intros (i & v & Hv & H1 & H2). exists i, v.
    split; [done|]. split; by apply lookup_app_l_Some.
Qed.

Lemma slide_twice (row : list Z) :
  slideAndMerge (slideAndMerge row) ≠ slideAndMerge row
  <-> linePair (slideAndMerge row).
Proof.
  rewrite (slideAndMerge_steps (slideAndMerge row)), (slideAndMerge_steps row).
  unfold slideAndMergeLine.
  set (g := mergePairs (removeZeros row)).
  assert (Hg : Forall (fun v => v ≠ 0) g)
    by apply mergePairs_nonzero, removeZeros_nonzero.
  rewrite (removeZeros_padTo SIZE g Hg), (linePair_padTo SIZE g Hg).
  rewrite <- (mergePairs_changes g Hg). split.
  - intros H Heq. apply H. by rewrite Heq.
  - intros H Heq. apply H.
    rewrite <- (removeZeros_padTo SIZE (mergePairs g)) by by apply mergePairs_nonzero.
    rewrite Heq. by apply removeZeros_padTo.
Qed.

(** ** Moving twice *)

Lemma rowPair_Exists (t : Board) : rowPair t <-> Exists linePair t.
Proof.
  rewrite Exists_exists. unfold rowPair, cellAt. split.
  - intros (r & c & v & Hv & H1 & H2).
    destruct (t !! r) as [row|] eqn:Hrow; [|done]. cbn in H1, H2.
    exists row. split; [|by exists c, v].
    apply list_elem_of_In, list_elem_of_lookup. by exists r.
  - intros (row & Hin & c & v & Hv & H1 & H2).
    apply list_elem_of_In, list_elem_of_lookup in Hin as [r Hr].
    exists r, c, v. by rewrite Hr.
Qed.

Lemma second_pass_flag (t : Board) :
  Forall (fun row => length row = SIZE) t ->
  existsb rowChanged (map slideAndMerge t) = true
  <-> Exists linePair (map slideAndMerge t).
Proof.
  induction 1 as [|row t Hrow Ht IH]; simpl.
  - split; [discriminate|]. by intros H%Exists_nil.
  - rewrite orb_true_iff, Exists_cons, IH, <- slide_twice.
    by rewrite (rowChanged_iff (slideAndMerge row))
      by (apply slideAndMerge_length; lia).
Qed.

Lemma linePair_rev4 (l : list Z) : length l = SIZE -> linePair l -> linePair (rev l).
Proof.
  intros Hlen (i & v & Hv & H1 & H2). explode4 l Hlen.
  rewrite Nat.add_1_r in H2.
  destruct i as [|[|[|i]]]; cbn in H1, H2; try done; simplify_eq.
  - by exists 2%nat, v.
  - by exists 1%nat, v.
  - by exists 0%nat, v.
Qed.

Lemma rowPair_reverseRows (t : Board) :
  Forall (fun row => length row = SIZE) t ->
  rowPair (reverseRows t) <-> rowPair t.
Proof.
  intros Ht. rewrite !rowPair_Exists. unfold reverseRows.
  induction Ht as [|row t Hrow Ht IH]; simpl; [done|].
  rewrite !Exists_cons, IH. split; (intros [H|H]; [left|by right]).
  - rewrite <- (rev_involutive row). apply linePair_rev4; [|done].
    by rewrite length_rev.
  - by apply linePair_rev4.
Qed.

Lemma rowPair_transpose (t t' : Board) :
  (forall r c, cellAt t' r c = cellAt t c r) -> rowPair t' <-> columnPair t.
Proof.
  intros Hcell. unfold rowPair, columnPair. split.
  - intros (r & c & v & Hv & H1 & H2). exists c, r, v. by rewrite <- !Hcell.
  - intros (r & c & v & Hv & H1 & H2). exists c, r, v. by rewrite !Hcell.
Qed.

Lemma toLeft_pairs (d : Direction) (b t : Board) :
  is4x4 b -> toLeft d b = Some t -> rowPair t <-> mergeableAlong d b.
Proof.
  intros Hb Ht. destruct d; cbn in Ht |- *.
  - destruct (transpose_4x4 b Hb) as (t' & Ht' & _ & _ & Hcell).
    apply rowPair_transpose. congruence.
  - destruct (transpose_4x4 b Hb) as (t' & Ht' & Ht4 & _ & Hcell).
    rewrite Ht' in Ht. cbn in Ht. injection Ht as <-.
    rewrite (rowPair_reverseRows t' (proj2 Ht4)).
    by apply rowPair_transpose.
  - by injection Ht as <-.
  - injection Ht as <-. apply rowPair_reverseRows, Hb.
Qed.

Lemma second_move (b : Board) (d : Direction) :
  is4x4 b ->
  exists res1 res2,
    move b d = Some res1 /\ is4x4 (newBoard res1)
    /\ move (newBoard res1) d = Some res2
    /\ (moved res2 = true <-> mergeableAlong d (newBoard res1)).
Proof.
  intros Hb.
  destruct (move_pipeline b d Hb)
    as (t & res & Ht & Ht4 & _ & _ & Hres4 & Hfwd & Hmove).
  destruct (move_pipeline res d Hres4)
    as (t2 & res2 & Ht2 & _ & _ & _ & _ & _ & Hmove2).
  eexists _, _. split; [exact Hmove|]. split; [exact Hres4|].
  split; [exact Hmove2|]. cbn [moved newBoard].
  rewrite <- (toLeft_pairs d res t2 Hres4 Ht2).
  assert (t2 = map slideAndMerge t) as -> by congruence.
  by rewrite rowPair_Exists, (second_pass_flag t (proj2 Ht4)).
Qed.

(** C5, as the specification states it, fails: the row [2,2,4,0] slides left
    to [4,4,0,0], and a second move to the left merges the two fours. *)
Lemma second_move_not_settled :
  ~ secondMoveSettled [[2; 2; 4; 0]; [0; 0; 0; 0]; [0; 0; 0; 0]; [0; 0; 0; 0]] left.
Proof.
  intros (res1 & res2 & H1 & H2 & H3).
  vm_compute in H1. injection H1 as <-.
  vm_compute in H2. injection H2 as <-.
  discriminate H3.
Qed.

(** C5, amended.  On a 4x4 board, after a move in direction [d] a second
    move in the same direction reports [moved = true] exactly when the board
    left by the first move has two equal non-zero tiles next to each other
    along the axis of [d]; so it reports [moved = false] whenever the first
    move leaves no such pair. *)
Theorem second_move_flag (b : Board) (d : Direction) :
  is4x4 b ->
  exists res1 res2,
    move b d = Some res1
    /\ move (newBoard res1) d = Some res2
    /\ (moved res2 = true <-> mergeableAlong d (newBoard res1))
    /\ (~ mergeableAlong d (newBoard res1) -> moved res2 = false).
Proof.
  intros Hb.
  destruct (second_move b d Hb) as (res1 & res2 & H1 & _ & H2 & Hiff).
  exists res1, res2. split; [done|]. split; [done|]. split; [done|].
  intros Hno. destruct (moved res2); [|done]. exfalso. by apply Hno, Hiff.
Qed.

Lemma second_move_flag_witness :
  exists res1 res2,
    move [[2; 0; 4; 0]; [0; 0; 0; 0]; [0; 4; 0; 0]; [0; 2; 0; 8]] up = Some res1
    /\ move (newBoard res1) up = Some res2
    /\ moved res1 = true /\ moved res2 = false.
Proof.
  destruct (second_move_flag
              [[2; 0; 4; 0]; [0; 0; 0; 0]; [0; 4; 0; 0]; [0; 2; 0; 8]] up
              (is4x4_cells _ _ _ _ _ _ _ _ _ _ _ _ _ _ _ _))
    as (res1 & res2 & H1 & H2 & _ & Hno).
  exists res1, res2. split; [done|]. split; [done|].
  vm_compute in H1. injection H1 as <-. split; [done|].
  apply Hno. intros (r & c & v & Hv & Hc & Hc').
  destruct r as [|[|[|[|r]]]], c as [|[|[|[|c]]]]; cbn in Hc, Hc'; simplify_eq.
Defined.

(** ** Sums *)

Lemma fold_add_from (l : list Z) (a : Z) : fold_left Z.add l a = a + lineSum l.
Proof.
  unfold lineSum. revert a. induction l as [|x l IH]; intros a; cbn [fold_left]; [lia|].
  rewrite (IH (a + x)), (IH (0 + x)). lia.
Qed.

Lemma lineSum_cons (x : Z) (l : list Z) : lineSum (x :: l) = x + lineSum l.
Proof. unfold lineSum at 1. simpl. apply fold_add_from. Qed.

Lemma lineSum_app (l1 l2 : list Z) : lineSum (l1 ++ l2) = lineSum l1 + lineSum l2.
Proof.
  induction l1 as [|x l1 IH]; [done|].
  simpl. rewrite !lineSum_cons, IH. lia.
Qed.

Lemma boardSum_cons (row : list Z) (b : Board) :
  boardSum (row :: b) = lineSum row + boardSum b.
Proof. unfold boardSum. simpl. fold (lineSum (row ++ concat b)). apply lineSum_app. Qed.

Lemma lineSum_rev (l : list Z) : lineSum (rev l) = lineSum l.
Proof.
  induction l as [|x l IH]; [done|].
  simpl. rewrite lineSum_app, IH, !lineSum_cons. unfold lineSum. simpl. lia.
Qed.

Lemma lineSum_removeZeros (l : list Z) : lineSum (removeZeros l) = lineSum l.
Proof.
  unfold removeZeros. induction l as [|x l IH]; [done|].
  rewrite filter_cons. destruct (decide (x ≠ 0)) as [|Hx].
  - by rewrite !lineSum_cons, IH.
  - rewrite lineSum_cons, IH. lia.
Qed.

Lemma lineSum_mergePairs (l : list Z) : lineSum (mergePairs l) = lineSum l.
Proof.
  induction l as [l IH] using (induction_ltof1 _ (@length Z)); unfold ltof in IH.
  destruct l as [|a [|b rest]]; try done.
  rewrite mergePairs_cons2. case_bool_decide.
  - rewrite !lineSum_cons, (IH rest) by (simpl; lia). lia.
  - rewrite !lineSum_cons, (IH (b :: rest)) by (simpl; lia).
    by rewrite lineSum_cons.
Qed.

Lemma lineSum_padTo (n : nat) (l : list Z) : lineSum (padTo n l) = lineSum l.
Proof.
  unfold padTo. rewrite lineSum_app.
  induction (n - length l)%nat as [|k IH]; simpl; [unfold lineSum; simpl; lia|].
  rewrite lineSum_cons. lia.
Qed.

Lemma lineSum_slideAndMerge (row : list Z) : lineSum (slideAndMerge row) = lineSum row.
Proof.
  rewrite slideAndMerge_steps. unfold slideAndMergeLine.
  by rewrite lineSum_padTo, lineSum_mergePairs, lineSum_removeZeros.
Qed.

Lemma boardSum_map_slide (b : Board) : boardSum (map slideAndMerge b) = boardSum b.
Proof.
  induction b as [|row b IH]; [done|].
  simpl. by rewrite !boardSum_cons, IH, lineSum_slideAndMerge.
Qed.

Lemma boardSum_reverseRows (b : Board) : boardSum (reverseRows b) = boardSum b.
Proof.
  induction b as [|row b IH]; [done|].
  simpl. by rewrite !boardSum_cons, IH, lineSum_rev.
Qed.

Lemma boardSum_transpose (b t : Board) :
  is4x4 b -> transpose b = Some t -> boardSum t = boardSum b.
Proof.
  intros Hb Ht. board_cells b Hb. injection Ht as <-.
  unfold boardSum. simpl. lia.
Qed.

Lemma boardSum_fromLeft (d : Direction) (b b' : Board) :
  is4x4 b -> fromLeft d b = Some b' -> boardSum b' = boardSum b.
Proof.
  intros Hb Hd. destruct d; cbn in Hd.
  - by apply boardSum_transpose.
  - rewrite <- (boardSum_reverseRows b).
    apply boardSum_transpose; [by apply is4x4_reverseRows|done].
  - by injection Hd as <-.
  - injection Hd as <-. apply boardSum_reverseRows.
Qed.

Lemma move_sum (b : Board) (d : Direction) :
  is4x4 b ->
  exists res, move b d = Some res /\ is4x4 (newBoard res)
              /\ boardSum (newBoard res) = boardSum b.
Proof.
  intros Hb.
  destruct (move_pipeline b d Hb)
    as (t & res & Ht & Ht4 & Hback & Hres & Hres4 & _ & Hmove).
  eexists. split; [exact Hmove|]. split; [exact Hres4|]. cbn [newBoard].
  rewrite (boardSum_fromLeft d _ res (is4x4_map_slide t Ht4) Hres).
  rewrite boardSum_map_slide. symmetry. by apply (boardSum_fromLeft d).
Qed.

(** ** Spawning a tile *)

Lemma collect_filter {A : Type} (P : nat -> Prop) `{!forall c, Decision (P c)}
    (f : nat -> A) (l : list nat) (acc : list A) :
  fold_left (fun acc c => if bool_decide (P c) then acc ++ [f c] else acc) l acc
  = acc ++ (f <$> filter P l).
Proof.
  revert acc. induction l as [|c l IH]; intros acc; simpl; [by rewrite app_nil_r|].
  rewrite IH, filter_cons. case_bool_decide as Hc.
  - rewrite decide_True by done. by rewrite <- app_assoc.
  - by rewrite decide_False by done.
Qed.

Lemma emptyCells_loop (b : Board) (l : list nat) (acc : list (nat * nat)) :
  Forall (fun r => (r < length b)%nat) l ->
  forEachM (fun empty r => row ← b !! r; Some (collectRow r row empty)) l acc
  = Some (acc ++ (l ≫= fun r =>
            (fun c => (r, c)) <$> filter (fun c => cellAt b r c = Some 0) (seq 0 SIZE))).
Proof.
  intros Hl. revert acc. induction Hl as [|r l Hr _ IH]; intros acc.
  - simpl. by rewrite app_nil_r.
  - cbn [forEachM]. destruct (lookup_lt_is_Some_2 b r Hr) as [row Hrow].
    rewrite Hrow. cbn [mbind option_bind]. rewrite IH, bind_cons, app_assoc.
    do 3 f_equal. unfold collectRow.
    rewrite (collect_filter (fun c => row !! c = Some 0)). do 2 f_equal.
    apply list_filter_iff. intros c. unfold cellAt. by rewrite Hrow.
Qed.

Lemma emptyCells_emptyOf (b : Board) :
  length b = SIZE -> emptyCells b = Some (emptyOf b).
Proof.
  intros Hlen. unfold emptyCells, emptyOf. rewrite emptyCells_loop; [done|].
  apply Forall_forall. intros r Hr%in_seq. lia.
Qed.

Lemma elem_of_emptyOf (b : Board) (r c : nat) :
  is4x4 b -> (r, c) ∈ emptyOf b <-> cellAt b r c = Some 0.
Proof.
  intros Hb. unfold emptyOf. rewrite list_elem_of_bind. split.
  - intros (r' & Hin & _). apply list_elem_of_fmap in Hin as (c' & [= -> ->] & Hc).
    by apply list_elem_of_filter in Hc as [Hc _].
  - intros Hc. destruct (cellAt_Some b r c 0 Hb Hc).
    exists r. split; [|apply elem_of_seq; lia].
    apply list_elem_of_fmap. exists c. split; [done|].
    apply list_elem_of_filter. split; [done|]. apply elem_of_seq. lia.
Qed.

Lemma NoDup_emptyOf (b : Board) : NoDup (emptyOf b).
Proof.
  unfold emptyOf. apply NoDup_bind.
  - intros r1 r2 [r c] _ _ H1 H2.
    apply list_elem_of_fmap in H1 as (c1 & [= -> ->] & _).
    by apply list_elem_of_fmap in H2 as (c2 & [= -> ->] & _).
  - intros r _. apply NoDup_fmap_2_strong.
    + by intros c1 c2 _ _ [= ->].
    + apply list.NoDup_filter, NoDup_seq.
  - apply NoDup_seq.
Qed.

Lemma length_emptyOf (b : Board) : (length (emptyOf b) <= SIZE * SIZE)%nat.
Proof.
  unfold emptyOf, SIZE. cbn [seq]. rewrite !bind_cons, !length_app, !length_fmap.
  repeat match goal with
         | |- context [length (filter ?P ?l)] =>
             let H := fresh "Hlen" in
             pose proof (length_filter P l) as H; simpl length in H;
             generalize dependent (length (filter P l)); intros
         end.
  simpl. lia.
Qed.

Lemma tileOf_cases (u : Q) :
  (tileOf u = 2 /\ (u < 9 # 10)%Q) \/ (tileOf u = 4 /\ (9 # 10 <= u)%Q).
Proof. unfold tileOf. destruct (Qlt_le_dec u (9 # 10)); [by left|by right]. Qed.

Lemma addRandomTile_full (b : Board) (g : Rng) :
  is4x4 b -> emptyOf b = [] -> addRandomTile b g = Some (b, g).
Proof.
  intros Hb He. unfold addRandomTile.
  rewrite (emptyCells_emptyOf b (proj1 Hb)), He. reflexivity.
Qed.

(** The index computed by [addRandomTile] is within the list of empty
    cells, and the draw lies within a relative 2^-53 of the [j]-th of the
    [k] equal parts of [0,1). *)
Lemma randomIndex_bounds (b : Board) (g : Rng) :
  rngValid g -> emptyOf b ≠ [] ->
  let u1 := draws g (cursor g) in
  let k := Z.of_nat (length (emptyOf b)) in
  let j := Qfloor (binary64 (u1 * inject_Z k)) in
  0 <= j < k
  /\ (inject_Z j * (1 - 2 ^ (-53)) <= u1 * inject_Z k)%Q
  /\ (u1 * inject_Z k < inject_Z (j + 1))%Q.
Proof.
  intros Hg He u1 k j. destruct (Hg (cursor g)) as [Hu0 Hu1].
  apply index_bounds; [done|by rewrite <- maxDraw_eq|].
  pose proof (length_emptyOf b) as Hlen. unfold SIZE in Hlen.
  unfold k. destruct (emptyOf b); [done|]. simpl length in *. lia.
Qed.

Lemma addRandomTile_place (b : Board) (g : Rng) :
  is4x4 b -> rngValid g -> emptyOf b ≠ [] ->
  let u1 := draws g (cursor g) in
  let u2 := draws g (S (cursor g)) in
  let j := Qfloor (binary64 (u1 * inject_Z (Z.of_nat (length (emptyOf b))))) in
  exists r c row,
    0 <= j /\ emptyOf b !! Z.to_nat j = Some (r, c)
    /\ b !! r = Some row /\ row !! c = Some 0
    /\ addRandomTile b g
       = Some (<[r := <[c := tileOf u2]> row]> b,
               {| draws := draws g; cursor := S (S (cursor g)) |}).
Proof.
  intros Hb Hg He u1 u2 j.
  assert (Hk : 0 < Z.of_nat (length (emptyOf b))).
  { destruct (emptyOf b); [done|]. simpl. lia. }
  destruct (randomIndex_bounds b g Hg He) as [[Hj0 Hjk] _]. fold u1 j in Hj0, Hjk.
  destruct (lookup_lt_is_Some_2 (emptyOf b) (Z.to_nat j)) as [[r c] Hrc]; [lia|].
  assert (Hcell : cellAt b r c = Some 0).
  { apply (elem_of_emptyOf b r c Hb), list_elem_of_lookup. eauto. }
  unfold cellAt in Hcell. destruct (b !! r) as [row|] eqn:Hrow; [|done].
  cbn in Hcell. exists r, c, row. split; [done|]. split; [done|].
  split; [done|]. split; [done|].
  unfold addRandomTile. rewrite (emptyCells_emptyOf b (proj1 Hb)).
  cbn [mbind option_bind].
  destruct (Nat.eqb_spec (length (emptyOf b)) 0) as [Hz|_]; [lia|].
  cbn [random]. fold u1 u2 j. unfold lookupZ.
  destruct (Z.ltb_spec j 0) as [|_]; [lia|].
  rewrite Hrc. cbn [mbind option_bind fst snd]. by rewrite Hrow.
Qed.

Lemma emptyOf_nil (b : Board) :
  is4x4 b -> emptyOf b = [] <-> forall r c, cellAt b r c ≠ Some 0.
Proof.
  intros Hb. split.
  - intros He r c Hc. apply (elem_of_emptyOf b r c Hb) in Hc.
    rewrite He in Hc. by apply elem_of_nil in Hc.
  - intros Hno. destruct (emptyOf b) as [|[r c] l] eqn:He; [done|].
    exfalso. apply (Hno r c), (elem_of_emptyOf b r c Hb). rewrite He. by left.
Qed.

Lemma cellAt_insert_eq (b : Board) (r c : nat) (row : list Z) (x v : Z) :
  b !! r = Some row -> row !! c = Some x ->
  cellAt (<[r := <[c := v]> row]> b) r c = Some v.
Proof.
  intros Hr Hc. unfold cellAt.
  rewrite list_lookup_insert_eq by (by eapply lookup_lt_Some). cbn.
  apply list_lookup_insert_eq. by eapply lookup_lt_Some.
Qed.

Lemma cellAt_insert_ne (b : Board) (r c r' c' : nat) (row : list Z) (v : Z) :
  b !! r = Some row -> (r', c') ≠ (r, c) ->
  cellAt (<[r := <[c := v]> row]> b) r' c' = cellAt b r' c'.
Proof.
  intros Hr Hne. unfold cellAt. destruct (decide (r' = r)) as [->|Hrr].
  - rewrite list_lookup_insert_eq by (by eapply lookup_lt_Some).
    rewrite Hr. cbn. apply list_lookup_insert_ne. congruence.
  - by rewrite list_lookup_insert_ne.
Qed.

Lemma lineSum_insert (l : list Z) (i : nat) (x y : Z) :
  l !! i = Some x -> lineSum (<[i := y]> l) = lineSum l - x + y.
Proof.
  revert i. induction l as [|a l IH]; intros i Hi; [done|].
  destruct i as [|i]; cbn in Hi.
  - injection Hi as ->. change (<[0%nat := y]> (x :: l)) with (y :: l).
    rewrite !lineSum_cons. lia.
  - change (<[S i := y]> (a :: l)) with (a :: <[i := y]> l).
    rewrite !lineSum_cons, (IH i Hi). lia.
Qed.

Lemma boardSum_insert (b : Board) (r : nat) (row row' : list Z) :
  b !! r = Some row ->
  boardSum (<[r := row']> b) = boardSum b - lineSum row + lineSum row'.
Proof.
  revert r. induction b as [|a b IH]; intros r Hr; [done|].
  destruct r as [|r]; cbn in Hr.
  - injection Hr as ->. change (<[0%nat := row']> (row :: b)) with (row' :: b).
    rewrite !boardSum_cons. lia.
  - change (<[S r := row']> (a :: b)) with (a :: <[r := row']> b).
    rewrite !boardSum_cons, (IH r Hr). lia.
Qed.

Lemma is4x4_insert (b : Board) (r c : nat) (row : list Z) (v : Z) :
  is4x4 b -> b !! r = Some row -> is4x4 (<[r := <[c := v]> row]> b).
Proof.
  intros Hb Hr. destruct (is4x4_lookup b r row Hb Hr) as [_ Hlen].
  destruct Hb as [Hlb Hrows]. split; [by rewrite length_insert|].
  apply Forall_insert; [done|]. by rewrite length_insert.
Qed.

(** What [addRandomTile] does on a board with an empty cell. *)
Lemma spawn_tile (b : Board) (g : Rng) :
  is4x4 b -> rngValid g -> (exists r c, cellAt b r c = Some 0) ->
  let u1 := draws g (cursor g) in
  let u2 := draws g (S (cursor g)) in
  let k := Z.of_nat (length (emptyOf b)) in
  exists (j r c : nat) (b' : Board),
    emptyOf b !! j = Some (r, c)
    /\ (inject_Z (Z.of_nat j) * (1 - 2 ^ (-53)) <= u1 * inject_Z k)%Q
    /\ (u1 * inject_Z k < inject_Z (Z.of_nat j + 1))%Q
    /\ cellAt b r c = Some 0
    /\ addRandomTile b g = Some (b', {| draws := draws g; cursor := S (S (cursor g)) |})
    /\ is4x4 b'
    /\ cellAt b' r c = Some (tileOf u2)
    /\ (forall r' c', (r', c') ≠ (r, c) -> cellAt b' r' c' = cellAt b r' c')
    /\ boardSum b' = boardSum b + tileOf u2.
Proof.
  intros Hb Hg (r0 & c0 & H0) u1 u2 k.
  assert (He : emptyOf b ≠ []).
  { intros He. by apply (proj1 (emptyOf_nil b Hb) He r0 c0). }
  destruct (addRandomTile_place b g Hb Hg He)
    as (r & c & row & Hj & Hrc & Hrow & Hc & Hadd).
  fold u1 u2 k in Hj, Hrc, Hadd.
  destruct (randomIndex_bounds b g Hg He) as (_ & Hlow & Hup). fold u1 k in Hlow, Hup.
  exists (Z.to_nat (Qfloor (binary64 (u1 * inject_Z k)))), r, c. eexists.
  rewrite Z2Nat.id by done.
  split; [done|]. split; [exact Hlow|]. split; [exact Hup|].
  split; [by unfold cellAt; rewrite Hrow|]. split; [exact Hadd|].
  split; [by apply is4x4_insert|]. split; [by eapply cellAt_insert_eq|].
  split; [intros r' c' Hne; by apply cellAt_insert_ne|].
  rewrite (boardSum_insert b r row _ Hrow), (lineSum_insert row c 0 _ Hc). lia.
Qed.

(** ** An accepted move leaves an empty cell *)

Lemma removeZeros_same_length (l : list Z) :
  length (removeZeros l) = length l -> removeZeros l = l.
Proof.
  unfold removeZeros. induction l as [|x l IH]; [done|].
  rewrite filter_cons. destruct (decide (x ≠ 0)); simpl; intros Hlen.
  - f_equal. apply IH. lia.
  - pose proof (length_filter (fun v => v ≠ 0) l). lia.
Qed.

Lemma mergePairs_same_length (l : list Z) :
  length (mergePairs l) = length l -> mergePairs l = l.
Proof.
  induction l as [l IH] using (induction_ltof1 _ (@length Z)); unfold ltof in IH.
  destruct l as [|a [|b rest]]; try done.
  rewrite mergePairs_cons2. case_bool_decide; cbn [length]; intros Hlen.
  - pose proof (mergePairs_length rest). lia.
  - f_equal. apply IH; cbn [length]; lia.
Qed.

Lemma slide_changed_zero (row : list Z) :
  length row = SIZE -> slideAndMerge row ≠ row -> 0 ∈ slideAndMerge row.
Proof.
  intros Hlen Hne. rewrite slideAndMerge_steps in Hne |- *.
  unfold slideAndMergeLine, padTo in *.
  pose proof (mergePairs_length (removeZeros row)) as H1.
  pose proof (removeZeros_length row) as H2.
  destruct (decide (length (mergePairs (removeZeros row)) = SIZE)) as [Heq|Hlt].
  - exfalso. apply Hne.
    rewrite mergePairs_same_length by lia.
    rewrite removeZeros_same_length by lia.
    rewrite Hlen, Nat.sub_diag. apply app_nil_r.
  - apply elem_of_app. right.
    destruct (SIZE - length (mergePairs (removeZeros row)))%nat eqn:Hk; [lia|].
    by left.
Qed.

Lemma cellAt_elem (b : Board) (v : Z) :
  (exists r c, cellAt b r c = Some v) <-> exists row, row ∈ b /\ v ∈ row.
Proof.
  unfold cellAt. split.
  - intros (r & c & H). destruct (b !! r) as [row|] eqn:Hr; [|done].
    exists row. split; apply list_elem_of_lookup; eauto.
  - intros (row & [r Hr]%list_elem_of_lookup & [c Hc]%list_elem_of_lookup).
    exists r, c. by rewrite Hr.
Qed.

Lemma zero_reverseRows (b : Board) :
  (exists r c, cellAt b r c = Some 0) ->
  exists r c, cellAt (reverseRows b) r c = Some 0.
Proof.
  rewrite !cellAt_elem. intros (row & Hin & H0). exists (rev row). split.
  - unfold reverseRows. apply list_elem_of_In, in_map. by apply list_elem_of_In.
  - apply list_elem_of_In, in_rev. rewrite rev_involutive. by apply list_elem_of_In.
Qed.

Lemma zero_fromLeft (d : Direction) (b b' : Board) :
  is4x4 b -> fromLeft d b = Some b' ->
  (exists r c, cellAt b r c = Some 0) -> exists r c, cellAt b' r c = Some 0.
Proof.
  intros Hb Hd Hz. destruct d; cbn in Hd.
  - destruct (transpose_4x4 b Hb) as (t & Ht & _ & _ & Hcell).
    destruct Hz as (r & c & H0). exists c, r.
    assert (b' = t) as -> by congruence. by rewrite Hcell.
  - apply zero_reverseRows in Hz.
    destruct (transpose_4x4 _ (is4x4_reverseRows b Hb)) as (t & Ht & _ & _ & Hcell).
    destruct Hz as (r & c & H0). exists c, r.
    assert (b' = t) as -> by congruence. by rewrite Hcell.
  - by injection Hd as <-.
  - injection Hd as <-. by apply zero_reverseRows.
Qed.

Lemma moved_leaves_empty (b : Board) (d : Direction) (res : MoveResult) :
  is4x4 b -> move b d = Some res -> moved res = true ->
  is4x4 (newBoard res) /\ exists r c, cellAt (newBoard res) r c = Some 0.
Proof.
  intros Hb Hmove Hmoved.
  destruct (move_pipeline b d Hb)
    as (t & nb & Ht & Ht4 & _ & Hres & Hres4 & _ & Hmove').
  rewrite Hmove' in Hmove. injection Hmove as <-. cbn in Hmoved |- *.
  split; [done|].
  apply (zero_fromLeft d (map slideAndMerge t) nb); [by apply is4x4_map_slide|done|].
  apply existsb_exists in Hmoved as (row & Hin & Hchg).
  apply cellAt_elem. exists (slideAndMerge row). split.
  - apply list_elem_of_In, in_map, Hin.
  - apply slide_changed_zero.
    + destruct Ht4 as [_ Hrows]. rewrite List.Forall_forall in Hrows. by apply Hrows.
    + apply rowChanged_iff; [|done].
      destruct Ht4 as [_ Hrows]. rewrite List.Forall_forall in Hrows. by apply Hrows.
Qed.

(** ** The sum invariant *)

(** C8.  On a 4x4 board a move leaves the sum of all cells unchanged, and a
    spawn on a board with an empty cell raises the sum by exactly the value
    of the tile it places, which is 2 or 4. *)
Theorem sum_invariant (b : Board) (d : Direction) (g : Rng) :
  is4x4 b -> rngValid g ->
  (exists res, move b d = Some res /\ boardSum (newBoard res) = boardSum b)
  /\ ((exists r c, cellAt b r c = Some 0) ->
      exists b' g' r c v,
        addRandomTile b g = Some (b', g')
        /\ cellAt b r c = Some 0 /\ cellAt b' r c = Some v
        /\ (v = 2 \/ v = 4)
        /\ boardSum b' = boardSum b + v).
Proof.
  intros Hb Hg. split.
  - destruct (move_sum b d Hb) as (res & Hmove & _ & Hsum). by exists res.
  - intros Hz.
    destruct (spawn_tile b g Hb Hg Hz)
      as (j & r & c & b' & _ & _ & _ & H0 & Hadd & _ & Hv & _ & Hsum).
    exists b'. eexists. exists r, c, (tileOf (draws g (S (cursor g)))).
    split; [exact Hadd|]. split; [done|]. split; [done|]. split; [|done].
    destruct (tileOf_cases (draws g (S (cursor g)))) as [[-> _]|[-> _]]; auto.
Qed.

(** ** The spawn *)

(** C9.  On a 4x4 board with no empty cell [addRandomTile] returns the
    board unchanged and draws nothing.  On a board with an empty cell it
    draws twice.  The first draw [u1] picks the empty cell of index
    [j = floor (binary64 (u1 * k))] among the [k] empty cells (listed once
    each, in row-major order): [j] is a valid index, it satisfies
    [j * (1 - 2^-53) <= u1 * k < j + 1], and every draw with
    [i <= u1 * k < (i + 1) * (1 - 2^-53)] picks index [i], so each empty
    cell is picked on one [k]-th of the draws up to the rounding of the
    product.  The second draw [u2] makes the tile 2 when [u2 < 9/10] and 4
    otherwise.  The picked cell, which held 0, receives the tile and every
    other cell is kept. *)
Theorem addRandomTile_spec (b : Board) (g : Rng) :
  is4x4 b -> rngValid g ->
  ((forall r c, cellAt b r c ≠ Some 0) -> addRandomTile b g = Some (b, g))
  /\ ((exists r c, cellAt b r c = Some 0) ->
      let u1 := draws g (cursor g) in
      let u2 := draws g (S (cursor g)) in
      let k := Z.of_nat (length (emptyOf b)) in
      let j := Qfloor (binary64 (u1 * inject_Z k)) in
      NoDup (emptyOf b)
      /\ (forall r c, (r, c) ∈ emptyOf b <-> cellAt b r c = Some 0)
      /\ 0 <= j < k
      /\ (inject_Z j * (1 - 2 ^ (-53)) <= u1 * inject_Z k)%Q
      /\ (u1 * inject_Z k < inject_Z (j + 1))%Q
      /\ (forall i : Z,
            (inject_Z i <= u1 * inject_Z k)%Q ->
            (u1 * inject_Z k < inject_Z (i + 1) * (1 - 2 ^ (-53)))%Q ->
            j = i)
      /\ exists (r c : nat) (b' : Board),
          emptyOf b !! Z.to_nat j = Some (r, c)
          /\ addRandomTile b g
             = Some (b', {| draws := draws g; cursor := S (S (cursor g)) |})
          /\ is4x4 b'
          /\ cellAt b r c = Some 0
          /\ cellAt b' r c = Some (tileOf u2)
          /\ ((tileOf u2 = 2 /\ (u2 < 9 # 10)%Q) \/ (tileOf u2 = 4 /\ (9 # 10 <= u2)%Q))
          /\ forall r' c', (r', c') ≠ (r, c) -> cellAt b' r' c' = cellAt b r' c').
Proof.
  intros Hb Hg. split.
  - intros Hfull. apply addRandomTile_full; [done|]. by apply emptyOf_nil.
  - intros (r0 & c0 & Hz) u1 u2 k j. split; [apply NoDup_emptyOf|].
    split; [intros r c; by apply elem_of_emptyOf|].
    assert (He : emptyOf b ≠ []).
    { intros He. by apply (proj1 (emptyOf_nil b Hb) He r0 c0). }
    destruct (randomIndex_bounds b g Hg He) as (Hrange & Hlow & Hup).
    fold u1 k j in Hrange, Hlow, Hup.
    split; [done|]. split; [done|]. split; [done|].
    split; [intros i Hi1 Hi2; by apply (index_unique (u1 * inject_Z k)%Q)|].
    destruct (addRandomTile_place b g Hb Hg He)
      as (r & c & row & _ & Hrc & Hrow & Hc & Hadd).
    fold u1 u2 k j in Hrc, Hadd.
    exists r, c. eexists. split; [exact Hrc|]. split; [exact Hadd|].
    split; [by apply is4x4_insert|].
    split; [by unfold cellAt; rewrite Hrow|].
    split; [by eapply cellAt_insert_eq|].
    split; [apply tileOf_cases|].
    intros r' c' Hne. by apply cellAt_insert_ne.
Qed.

(** ** The session controller *)

(** C7.  An input whose move reports [moved = false] leaves the session and
    the random source as they were: no tile, no new board, no new score, no
    change of [gameOver]. *)
Theorem handleMove_rejected (s : Session) (d : Direction) (g : Rng) (res : MoveResult) :
  move (board s) d = Some res -> moved res = false ->
  handleMove s d g = Some (s, g).
Proof.
  intros Hmove Hmoved. unfold handleMove.
  destruct (gameOver s); [done|].
  rewrite Hmove. cbn [mbind option_bind]. by rewrite Hmoved.
Qed.

(** C10.  Once [gameOver] is true every input, and so every sequence of
    inputs, leaves the session and the random source unchanged; the board is
    not even looked at. *)
Theorem gameOver_absorbing (s : Session) (g : Rng) :
  gameOver s = true ->
  (forall d, handleMove s d g = Some (s, g))
  /\ forall directions, handleMoves s directions g = Some (s, g).
Proof.
  intros Hover.
  assert (Hone : forall d, handleMove s d g = Some (s, g)).
  { intros d. unfold handleMove. by rewrite Hover. }
  split; [done|].
  induction directions as [|d rest IH]; [done|].
  cbn [handleMoves]. by rewrite Hone.
Qed.

(** ** The theorems at sample values *)

Lemma sum_invariant_witness :
  exists res, move sampleBoard down = Some res
              /\ boardSum (newBoard res) = boardSum sampleBoard.
Proof.
  apply (sum_invariant sampleBoard down sampleRng).
  - apply is4x4_cells.
  - intros n. unfold sampleRng, draws. destruct (Nat.even n); split; unfold Qle, Qlt; simpl; lia.
Defined.

Lemma addRandomTile_spec_witness :
  addRandomTile fullBoard sampleRng = Some (fullBoard, sampleRng)
  /\ exists g',
      addRandomTile threeEmpty roundingRng
      = Some ([[0; 2; 4; 8]; [2; 0; 4; 8]; [2; 4; 2; 8]; [2; 4; 8; 16]], g').
Proof.
  split.
  - apply (addRandomTile_spec fullBoard sampleRng).
    + apply is4x4_cells.
    + intros n. unfold sampleRng, draws. destruct (Nat.even n); split; unfold Qle, Qlt; simpl; lia.
    + intros r c. destruct r as [|[|[|[|r]]]], c as [|[|[|[|c]]]]; discriminate.
  - destruct (addRandomTile_spec threeEmpty roundingRng) as [_ Hspawn].
    + apply is4x4_cells.
    + intros n. unfold roundingRng, draws. destruct (Nat.even n); split; unfold Qle, Qlt; simpl; lia.
    + destruct Hspawn as (_ & _ & _ & _ & _ & _ & r & c & b' & _ & Hadd & _);
        [by exists 0%nat, 0%nat|].
      eexists. rewrite Hadd. vm_compute in Hadd. by injection Hadd as <-.
Defined.

Lemma handleMove_rejected_witness :
  handleMove {| board := leftBoard; score := 22; gameOver := false |} left sampleRng
  = Some ({| board := leftBoard; score := 22; gameOver := false |}, sampleRng).
Proof.
  apply (handleMove_rejected _ left sampleRng {| newBoard := leftBoard; moved := false |}).
  - vm_compute. reflexivity.
  - reflexivity.
Defined.

Lemma gameOver_absorbing_witness :
  handleMoves {| board := fullBoard; score := 48; gameOver := true |}
              [left; up; right; down] sampleRng
  = Some ({| board := fullBoard; score := 48; gameOver := true |}, sampleRng).
Proof.
  apply (gameOver_absorbing {| board := fullBoard; score := 48; gameOver := true |} sampleRng).
  reflexivity.
Defined.

(** * Further properties of the engine *)

(** ** Which lines a slide changes *)

Lemma lineGap_tail (a : Z) (l : list Z) : lineGap l -> lineGap (a :: l).
Proof. intros (i & v & Hv & H1 & H2). by exists (S i), v. Qed.

Lemma linePair_tail (a : Z) (l : list Z) : linePair l -> linePair (a :: l).
Proof. intros (i & v & Hv & H1 & H2). by exists (S i), v. Qed.

(** A line has a gap or is a run of non-zero values followed by zeros. *)
Lemma gap_or_compact (l : list Z) :
  lineGap l
  \/ exists g k, l = g ++ replicate k 0 /\ Forall (fun v => v ≠ 0) g.
Proof.
  induction l as [|a l IH]; [right; by exists [], 0%nat|].
  destruct IH as [Hgap|(g & k & -> & Hg)]; [left; by apply lineGap_tail|].
  destruct (decide (a = 0)) as [->|Ha].
  - destruct g as [|x g].
    + right. by exists [], (S k).
    + left. apply Forall_cons_1 in Hg as [Hx _]. by exists 0%nat, x.
  - right. exists (a :: g), k. split; [done|]. by constructor.
Qed.

Lemma lookup_nonzero_run (g : list Z) (k i : nat) (v : Z) :
  Forall (fun v => v ≠ 0) g ->
  (g ++ replicate k 0) !! i = Some v ->
  (v ≠ 0 /\ g !! i = Some v) \/ (v = 0 /\ (length g <= i)%nat).
Proof.
  intros Hg Hi. apply lookup_app_Some in Hi as [Hi|[Hlen Hi]].
  - left. split; [|done]. rewrite Forall_lookup in Hg. by eapply Hg.
  - right. by apply lookup_replicate in Hi as [-> _].
Qed.

Lemma compact_no_gap (g : list Z) (k : nat) :
  Forall (fun v => v ≠ 0) g -> ~ lineGap (g ++ replicate k 0).
Proof.
  intros Hg (i & v & Hv & H1 & H2).
  destruct (lookup_nonzero_run g k i 0 Hg H1) as [[? _]|[_ Hlen]]; [done|].
  destruct (lookup_nonzero_run g k (i + 1) v Hg H2) as [[_ Hin]|[? _]]; [|done].
  apply lookup_lt_Some in Hin. lia.
Qed.

Lemma linePair_removeZeros (l : list Z) : linePair l -> linePair (removeZeros l).
Proof.
  intros (i & v & Hv & H1 & H2). revert i H1 H2.
  unfold removeZeros. induction l as [|a l IH]; intros i H1 H2; [done|].
  rewrite filter_cons. destruct i as [|i]; cbn in H1, H2.
  - injection H1 as ->. destruct l as [|b l]; [done|]. cbn in H2. injection H2 as ->.
    rewrite decide_True by done. rewrite filter_cons, decide_True by done.
    by exists 0%nat, v.
  - specialize (IH i H1 H2). destruct (decide (a ≠ 0)); [by apply linePair_tail|done].
Qed.

Lemma linePair_run (g : list Z) (k : nat) :
  Forall (fun v => v ≠ 0) g -> linePair (g ++ replicate k 0) <-> linePair g.
Proof.
  intros Hg. split.
  - intros (i & v & Hv & H1 & H2). exists i, v. split; [done|].
    destruct (lookup_nonzero_run g k i v Hg H1) as [[_ ?]|[? _]]; [|done].
    by destruct (lookup_nonzero_run g k (i + 1) v Hg H2) as [[_ ?]|[? _]].
  - intros (i & v & Hv & H1 & H2). exists i, v.
    split; [done|]. split; by apply lookup_app_l_Some.
Qed.

Lemma removeZeros_run (g : list Z) (k : nat) :
  Forall (fun v => v ≠ 0) g -> removeZeros (g ++ replicate k 0) = g.
Proof.
  intros Hg. unfold removeZeros. rewrite list.filter_app.
  fold (removeZeros g). rewrite (removeZeros_id g Hg).
  induction k as [|k IH]; simpl; [by rewrite app_nil_r|].
  rewrite filter_cons. by destruct (decide (0 ≠ 0)).
Qed.

Lemma slide_is_compact (row : list Z) :
  exists g k, slideAndMerge row = g ++ replicate k 0
              /\ Forall (fun v => v ≠ 0) g
              /\ g = mergePairs (removeZeros row)
              /\ k = (SIZE - length g)%nat.
Proof.
  exists (mergePairs (removeZeros row)), (SIZE - length (mergePairs (removeZeros row)))%nat.
  split; [apply slideAndMerge_steps|].
  split; [apply mergePairs_nonzero, removeZeros_nonzero|done].
Qed.

Lemma slide_changes_iff (row : list Z) :
  length row = SIZE ->
  slideAndMerge row ≠ row <-> lineGap row \/ linePair row.
Proof.
  intros Hlen. destruct (slide_is_compact row) as (g & k & Hs & Hg & Hgdef & Hk).
  split.
  - intros Hne. destruct (gap_or_compact row) as [Hgap|(f & n & Hrow & Hf)]; [by left|].
    right. subst row. rewrite (linePair_run f n Hf).
    apply (mergePairs_changes f Hf). intros Hfix. apply Hne.
    rewrite Hs, Hgdef, (removeZeros_run f n Hf), Hfix. f_equal.
    rewrite Hk, Hgdef, (removeZeros_run f n Hf), Hfix.
    rewrite length_app, length_replicate in Hlen. f_equal. lia.
  - intros [Hgap|Hpair] Heq.
    + rewrite <- Heq, Hs in Hgap. by apply (compact_no_gap g k Hg).
    + apply linePair_removeZeros in Hpair.
      apply (mergePairs_changes _ (removeZeros_nonzero row)) in Hpair.
      apply Hpair. rewrite <- Hgdef.
      rewrite <- Heq, Hs. by rewrite removeZeros_run.
Qed.

(** ** Which moves are accepted *)

Lemma canSlide_left_Exists (t : Board) : canSlide left t <-> Exists lineGap t.
Proof.
  rewrite Exists_exists. unfold canSlide, cellAt. split.
  - intros (r & c & v & Hv & H1 & H2).
    destruct (t !! r) as [row|] eqn:Hrow; [|done]. cbn in H1, H2.
    exists row. split; [|by exists c, v].
    apply list_elem_of_In, list_elem_of_lookup. by exists r.
  - intros (row & Hin & c & v & Hv & H1 & H2).
    apply list_elem_of_In, list_elem_of_lookup in Hin as [r Hr].
    exists r, c, v. by rewrite Hr.
Qed.

Lemma flag_iff_gap_or_pair (t : Board) :
  Forall (fun row => length row = SIZE) t ->
  existsb rowChanged t = true <-> canSlide left t \/ rowPair t.
Proof.
  intros Ht. rewrite canSlide_left_Exists, rowPair_Exists.
  induction Ht as [|row t Hrow Ht IH]; simpl.
  - split; [discriminate|]. by intros [H%Exists_nil|H%Exists_nil].
  - rewrite orb_true_iff, !Exists_cons, IH, (rowChanged_iff row Hrow),
      (slide_changes_iff row Hrow). tauto.
Qed.

Lemma rev4_gap (l : list Z) (c : nat) (v : Z) :
  length l = SIZE -> rev l !! c = Some 0 -> rev l !! (c + 1)%nat = Some v ->
  l !! (2 - c)%nat = Some v /\ l !! (2 - c + 1)%nat = Some 0.
Proof.
  intros Hlen H1 H2. explode4 l Hlen. rewrite Nat.add_1_r in H2.
  destruct c as [|[|[|c]]]; cbn in H1, H2 |- *; done.
Qed.

Lemma rev4_drop (l : list Z) (c : nat) (v : Z) :
  length l = SIZE -> l !! c = Some v -> l !! (c + 1)%nat = Some 0 ->
  rev l !! (2 - c)%nat = Some 0 /\ rev l !! (2 - c + 1)%nat = Some v.
Proof.
  intros Hlen H1 H2. explode4 l Hlen. rewrite Nat.add_1_r in H2.
  destruct c as [|[|[|c]]]; cbn in H1, H2 |- *; done.
Qed.

Lemma canSlide_reverseRows (t : Board) :
  Forall (fun row => length row = SIZE) t ->
  canSlide left (reverseRows t) <-> canSlide right t.
Proof.
  intros Ht. rewrite Forall_lookup in Ht.
  unfold canSlide, cellAt, reverseRows. split.
  - intros (r & c & v & Hv & H1 & H2).
    change (map (fun row => rev row) t) with ((fun row => rev row) <$> t) in H1, H2.
    rewrite list_lookup_fmap in H1, H2.
    destruct (t !! r) as [row|] eqn:Hrow; [|done]. cbn in H1, H2.
    destruct (rev4_gap row c v (Ht r row Hrow) H1 H2).
    exists r, (2 - c)%nat, v. by rewrite Hrow.
  - intros (r & c & v & Hv & H1 & H2).
    destruct (t !! r) as [row|] eqn:Hrow; [|done]. cbn in H1, H2.
    destruct (rev4_drop row c v (Ht r row Hrow) H1 H2).
    exists r, (2 - c)%nat, v. split; [done|].
    change (map (fun row => rev row) t) with ((fun row => rev row) <$> t).
    by rewrite list_lookup_fmap, Hrow.
Qed.

Lemma canSlide_transpose (t t' : Board) :
  (forall r c, cellAt t' r c = cellAt t c r) ->
  (canSlide left t' <-> canSlide up t) /\ (canSlide right t' <-> canSlide down t).
Proof.
  intros Hcell. unfold canSlide. split; split.
  all: intros (r & c & v & Hv & H1 & H2); exists c, r, v.
  all: first [by rewrite <- !Hcell | by rewrite !Hcell].
Qed.

Lemma toLeft_canSlide (d : Direction) (b t : Board) :
  is4x4 b -> toLeft d b = Some t -> canSlide left t <-> canSlide d b.
Proof.
  intros Hb Ht. destruct d; cbn [toLeft] in Ht.
  - destruct (transpose_4x4 b Hb) as (t' & Ht' & _ & _ & Hcell).
    assert (t = t') as -> by congruence. by apply canSlide_transpose.
  - destruct (transpose_4x4 b Hb) as (t' & Ht' & Ht4 & _ & Hcell).
    rewrite Ht' in Ht. cbn in Ht. injection Ht as <-.
    rewrite (canSlide_reverseRows t' (proj2 Ht4)).
    by apply canSlide_transpose.
  - by injection Ht as <-.
  - injection Ht as <-. apply canSlide_reverseRows, Hb.
Qed.

Lemma move_flag (b : Board) (d : Direction) :
  is4x4 b ->
  exists res, move b d = Some res /\ is4x4 (newBoard res)
              /\ (moved res = true <-> canSlide d b \/ mergeableAlong d b).
Proof.
  intros Hb.
  destruct (move_pipeline b d Hb)
    as (t & res & Ht & Ht4 & _ & _ & Hres4 & _ & Hmove).
  eexists. split; [exact Hmove|]. split; [exact Hres4|]. cbn [moved].
  rewrite (flag_iff_gap_or_pair t (proj2 Ht4)).
  by rewrite (toLeft_canSlide d b t Hb Ht), (toLeft_pairs d b t Hb Ht).
Qed.

(** X1.  On a 4x4 board a move in direction [d] is accepted
    ([moved = true]) exactly when some tile has an empty cell right ahead of
    it in direction [d], or two equal tiles are next to each other along the
    axis of [d]. *)
Theorem move_accepted_iff (b : Board) (d : Direction) :
  is4x4 b ->
  exists res, move b d = Some res
              /\ (moved res = true <-> canSlide d b \/ mergeableAlong d b).
Proof.
  intros Hb. destruct (move_flag b d Hb) as (res & Hmove & _ & Hiff).
  by exists res.
Qed.

Lemma move_accepted_iff_witness :
  exists res, move sampleBoard right = Some res /\ moved res = true.
Proof.
  destruct (move_accepted_iff sampleBoard right (is4x4_cells _ _ _ _ _ _ _ _ _ _ _ _ _ _ _ _))
    as (res & Hmove & Hiff).
  exists res. split; [done|]. apply Hiff. left.
  exists 0%nat, 2%nat, 4. by repeat split.
Defined.

(** ** The terminal test and the four moves *)

Lemma hasMoves_true_iff (b : Board) :
  is4x4 b ->
  exists h, hasMoves b = Some h
            /\ (h = true <-> (exists r c, cellAt b r c = Some 0) \/ rowPair b \/ columnPair b).
Proof.
  intros Hb. eexists. split; [by apply hasMoves_cells|].
  rewrite existsb_exists. unfold rowPair, columnPair. split.
  - intros (r & Hr & (c & Hc & Hm)%existsb_exists).
    apply in_seq in Hr, Hc.
    destruct (cellAt_is_Some b r c Hb) as [v Hv]; [lia..|].
    destruct (decide (v = 0)) as [->|Hv0]; [left; by exists r, c|].
    right. unfold mergeableAt in Hm. rewrite Hv in Hm.
    rewrite (bool_decide_eq_false_2 (Some v = Some 0)) in Hm by congruence.
    cbn [orb] in Hm.
    apply orb_true_iff in Hm as [Hm|Hm];
      apply andb_true_iff in Hm as [_ Hm%bool_decide_eq_true_1].
    + left. by exists r, c, v.
    + right. by exists r, c, v.
  - intros Hcase.
    assert (exists r c, (r < SIZE)%nat /\ (c < SIZE)%nat /\ mergeableAt b r c = true)
      as (r & c & Hr & Hc & Hm).
    { unfold mergeableAt.
      destruct Hcase as [(r & c & H0)|[(r & c & v & Hv0 & Hv & Hv')|(r & c & v & Hv0 & Hv & Hv')]].
      - destruct (cellAt_Some b r c 0 Hb H0). exists r, c.
        by rewrite (bool_decide_eq_true_2 _ H0).
      - destruct (cellAt_Some b r c v Hb Hv), (cellAt_Some b r (c + 1) v Hb Hv').
        exists r, c. split; [done|]. split; [done|].
        rewrite (bool_decide_eq_true_2 (c + 1 < SIZE)%nat) by done.
        rewrite (bool_decide_eq_true_2 (cellAt b r c = cellAt b r (c + 1)%nat)) by congruence.
        cbn. by rewrite orb_true_r.
      - destruct (cellAt_Some b r c v Hb Hv), (cellAt_Some b (r + 1) c v Hb Hv').
        exists r, c. split; [done|]. split; [done|].
        rewrite (bool_decide_eq_true_2 (r + 1 < SIZE)%nat) by done.
        rewrite (bool_decide_eq_true_2 (cellAt b r c = cellAt b (r + 1)%nat c)) by congruence.
        cbn. by rewrite orb_true_r. }
    exists r. split; [apply in_seq; lia|]. apply existsb_exists.
    exists c. split; [apply in_seq; lia|done].
Qed.

(** Between two positions where a test differs, it flips at some step. *)
Lemma flip_point (f : nat -> bool) (i n : nat) :
  f i ≠ f (i + n)%nat -> exists k, (i <= k < i + n)%nat /\ f k ≠ f (S k).
Proof.
  induction n as [|n IH]; intros Hne.
  - by rewrite Nat.add_0_r in Hne.
  - destruct (decide (f i = f (i + n)%nat)) as [Heq|Hne'].
    + exists (i + n)%nat. split; [lia|]. rewrite Heq in Hne.
      by rewrite Nat.add_succ_r in Hne.
    + destruct (IH Hne') as (k & Hk & Hflip). exists k. split; [lia|done].
Qed.

(** Along a line of defined cells, a zero and a tile somewhere give a zero
    and a tile side by side. *)
Lemma zero_beside_tile (f : nat -> option Z) (i j : nat) (v : Z) :
  (forall k, (k < SIZE)%nat -> is_Some (f k)) ->
  (i < SIZE)%nat -> (j < SIZE)%nat ->
  f i = Some 0 -> f j = Some v -> v ≠ 0 ->
  exists k w, w ≠ 0 /\ ((f k = Some 0 /\ f (k + 1)%nat = Some w)
                       \/ (f k = Some w /\ f (k + 1)%nat = Some 0)).
Proof.
  intros Hdef Hi Hj Hzero Htile Hv.
  set (z := fun k => bool_decide (f k = Some 0)).
  assert (Hzi : z i = true) by (by apply bool_decide_eq_true_2).
  assert (Hzj : z j = false) by (apply bool_decide_eq_false_2; congruence).
  assert (exists k, (k + 1 < SIZE)%nat /\ z k ≠ z (S k)) as (k & Hk & Hflip).
  { destruct (decide (i <= j)%nat).
    - destruct (flip_point z i (j - i)) as (k & Hk & Hflip).
      + replace (i + (j - i))%nat with j by lia. congruence.
      + exists k. split; [lia|done].
    - destruct (flip_point z j (i - j)) as (k & Hk & Hflip).
      + replace (j + (i - j))%nat with i by lia. congruence.
      + exists k. split; [lia|done]. }
  destruct (Hdef k ltac:(lia)) as [a Ha], (Hdef (k + 1)%nat Hk) as [a' Ha'].
  rewrite <- Nat.add_1_r in Hflip. unfold z in Hflip. rewrite Ha, Ha' in Hflip.
  exists k. destruct (decide (a = 0)) as [->|Hnz].
  - exists a'. rewrite Ha, Ha'. split; [|by left].
    intros ->. by apply Hflip.
  - exists a. rewrite Ha, Ha'. split; [done|]. right. split; [done|].
    rewrite (bool_decide_eq_false_2 (Some a = Some 0)) in Hflip by congruence.
    destruct (decide (a' = 0)) as [->|Hnz']; [done|].
    by rewrite (bool_decide_eq_false_2 (Some a' = Some 0)) in Hflip by congruence.
Qed.

Lemma zero_and_tile_slide (b : Board) :
  is4x4 b ->
  (exists r c, cellAt b r c = Some 0) ->
  (exists r c v, v ≠ 0 /\ cellAt b r c = Some v) ->
  exists d, canSlide d b.
Proof.
  intros Hb (r0 & c0 & Hzero) (r1 & c1 & v & Hv & Htile).
  destruct (cellAt_Some b r0 c0 0 Hb Hzero) as [Hr0 Hc0].
  destruct (cellAt_Some b r1 c1 v Hb Htile) as [Hr1 Hc1].
  destruct (cellAt_is_Some b r0 c1 Hb Hr0 Hc1) as [w Hw].
  destruct (decide (w = 0)) as [->|Hwnz].
  - destruct (zero_beside_tile (fun r => cellAt b r c1) r0 r1 v)
      as (k & x & Hx & [[H1 H2]|[H1 H2]]); try done.
    + intros k Hk. destruct (cellAt_is_Some b k c1 Hb Hk Hc1) as [y Hy]. by exists y.
    + exists up, k, c1, x. by split.
    + exists down, k, c1, x. by split.
  - destruct (zero_beside_tile (fun c => cellAt b r0 c) c0 c1 w)
      as (k & x & Hx & [[H1 H2]|[H1 H2]]); try done.
    + intros k Hk. destruct (cellAt_is_Some b r0 k Hb Hr0 Hk) as [y Hy]. by exists y.
    + exists left, r0, k, x. by split.
    + exists right, r0, k, x. by split.
Qed.

Lemma canSlide_zero (d : Direction) (b : Board) :
  canSlide d b -> exists r c, cellAt b r c = Some 0.
Proof. intros (r & c & v & _ & H). destruct d, H; eauto. Qed.

Lemma stuck_iff_no_move (b : Board) :
  is4x4 b ->
  exists h, hasMoves b = Some h
    /\ (h = false ->
        forall d, exists res, move b d = Some res /\ moved res = false)
    /\ ((exists r c v, v ≠ 0 /\ cellAt b r c = Some v) -> h = true ->
        exists d res, move b d = Some res /\ moved res = true).
Proof.
  intros Hb. destruct (hasMoves_true_iff b Hb) as (h & Hh & Hiff).
  exists h. split; [done|]. split.
  - intros -> d. destruct (move_flag b d Hb) as (res & Hmove & _ & Hflag).
    exists res. split; [done|]. destruct (moved res); [|done].
    exfalso. assert (false = true); [|done]. apply Hiff.
    destruct (proj1 Hflag eq_refl) as [Hs|Hp].
    + left. by eapply canSlide_zero.
    + right. destruct d; auto.
  - intros Htile ->. destruct (proj1 Hiff eq_refl) as [Hzero|[Hrow|Hcol]].
    + destruct (zero_and_tile_slide b Hb Hzero Htile) as [d Hd].
      destruct (move_flag b d Hb) as (res & Hmove & _ & Hflag).
      exists d, res. split; [done|]. apply Hflag. by left.
    + destruct (move_flag b left Hb) as (res & Hmove & _ & Hflag).
      exists left, res. split; [done|]. apply Hflag. by right.
    + destruct (move_flag b up Hb) as (res & Hmove & _ & Hflag).
      exists up, res. split; [done|]. apply Hflag. by right.
Qed.

(** X2.  [hasMoves] is the exact terminal test: on a 4x4 board, when it
    returns false every one of the four moves is rejected, and when it
    returns true on a board holding at least one tile, at least one of the
    four moves is accepted. *)
Theorem hasMoves_exact (b : Board) :
  is4x4 b ->
  exists h, hasMoves b = Some h
    /\ (h = false ->
        forall d, exists res, move b d = Some res /\ moved res = false)
    /\ ((exists r c v, v ≠ 0 /\ cellAt b r c = Some v) -> h = true ->
        exists d res, move b d = Some res /\ moved res = true).
Proof. apply stuck_iff_no_move. Qed.

Lemma hasMoves_exact_witness :
  exists res, move fullBoard up = Some res /\ moved res = false.
Proof.
  destruct (hasMoves_exact fullBoard (is4x4_cells _ _ _ _ _ _ _ _ _ _ _ _ _ _ _ _))
    as (h & Hh & Hstuck & _).
  apply Hstuck. vm_compute in Hh. by injection Hh as <-.
Defined.

(** ** Tile values *)

Lemma isTileValue_double (v : Z) :
  isTileValue v = true -> v ≠ 0 -> isTileValue (v + v) = true.
Proof.
  unfold isTileValue. intros H Hv.
  apply orb_true_iff in H as [H|H]; [lia|].
  apply andb_true_iff in H as [H2 Hpow].
  apply orb_true_iff. right. apply andb_true_iff. split; [lia|].
  apply Z.eqb_eq in Hpow. apply Z.eqb_eq.
  replace (v + v) with (2 * v) by lia.
  rewrite Z.log2_double by lia. rewrite Z.pow_succ_r by apply Z.log2_nonneg. lia.
Qed.

Lemma removeZeros_tiles (l : list Z) :
  Forall (fun v => isTileValue v = true) l ->
  Forall (fun v => isTileValue v = true) (removeZeros l).
Proof.
  rewrite !Forall_forall. intros H v Hv%list_elem_of_In%list_elem_of_filter.
  apply H, list_elem_of_In, Hv.
Qed.

Lemma mergePairs_tiles (l : list Z) :
  Forall (fun v => v ≠ 0) l ->
  Forall (fun v => isTileValue v = true) l ->
  Forall (fun v => isTileValue v = true) (mergePairs l).
Proof.
  induction l as [l IH] using (induction_ltof1 _ (@length Z)); unfold ltof in IH.
  destruct l as [|a [|b rest]]; intros Hnz Ht; try done.
  apply Forall_cons_1 in Hnz as [Ha Hnz]. apply Forall_cons_1 in Ht as [Hta Ht].
  rewrite mergePairs_cons2. case_bool_decide as Hab.
  - subst b. apply Forall_cons_1 in Hnz as [_ Hnz]. apply Forall_cons_1 in Ht as [_ Ht].
    constructor; [by apply isTileValue_double|]. apply IH; [simpl; lia|done..].
  - constructor; [done|]. apply IH; [simpl; lia|done..].
Qed.

Lemma slideAndMerge_tiles (row : list Z) :
  Forall (fun v => isTileValue v = true) row ->
  Forall (fun v => isTileValue v = true) (slideAndMerge row).
Proof.
  intros H. rewrite slideAndMerge_steps. unfold slideAndMergeLine, padTo.
  apply Forall_app. split.
  - apply mergePairs_tiles; [apply removeZeros_nonzero|by apply removeZeros_tiles].
  - by apply Forall_replicate.
Qed.

Lemma validBoard_cells (b : Board) :
  validBoard b <-> forall r c v, cellAt b r c = Some v -> isTileValue v = true.
Proof.
  unfold validBoard, cellAt. split.
  - intros H r c v Hc. destruct (b !! r) as [row|] eqn:Hrow; [|done]. cbn in Hc.
    rewrite Forall_lookup in H. specialize (H r row Hrow).
    rewrite Forall_lookup in H. by eapply H.
  - intros H. apply Forall_lookup. intros r row Hrow.
    apply Forall_lookup. intros c v Hv. apply (H r c v). by rewrite Hrow.
Qed.

Lemma validBoard_map_slide (b : Board) : validBoard b -> validBoard (map slideAndMerge b).
Proof.
  unfold validBoard. intros H. apply Forall_fmap.
  eapply Forall_impl; [|exact H]. intros row Hr. by apply slideAndMerge_tiles.
Qed.

Lemma validBoard_reverseRows (b : Board) : validBoard b -> validBoard (reverseRows b).
Proof.
  unfold validBoard, reverseRows. intros H. apply Forall_fmap.
  eapply Forall_impl; [|exact H]. intros row Hr. simpl.
  rewrite Forall_forall in Hr |- *. intros v Hv. apply Hr. by apply in_rev.
Qed.

Lemma validBoard_transpose (b t : Board) :
  is4x4 b -> transpose b = Some t -> validBoard b -> validBoard t.
Proof.
  intros Hb Ht Hv. destruct (transpose_4x4 b Hb) as (t' & Ht' & _ & _ & Hcell).
  assert (t = t') as -> by congruence.
  apply validBoard_cells. intros r c v Hc. rewrite Hcell in Hc.
  by apply (proj1 (validBoard_cells b) Hv c r v).
Qed.

Lemma validBoard_toLeft (d : Direction) (b t : Board) :
  is4x4 b -> toLeft d b = Some t -> validBoard b -> validBoard t.
Proof.
  intros Hb Ht Hv. destruct d; cbn [toLeft] in Ht.
  - by eapply validBoard_transpose.
  - destruct (transpose b) as [t'|] eqn:Ht'; [|done]. cbn in Ht. injection Ht as <-.
    apply validBoard_reverseRows. by eapply validBoard_transpose.
  - by injection Ht as <-.
  - injection Ht as <-. by apply validBoard_reverseRows.
Qed.

Lemma validBoard_fromLeft (d : Direction) (b t : Board) :
  is4x4 b -> fromLeft d b = Some t -> validBoard b -> validBoard t.
Proof.
  intros Hb Ht Hv. destruct d; cbn [fromLeft] in Ht.
  - by eapply validBoard_transpose.
  - eapply validBoard_transpose; [by apply is4x4_reverseRows|done|].
    by apply validBoard_reverseRows.
  - by injection Ht as <-.
  - injection Ht as <-. by apply validBoard_reverseRows.
Qed.

Lemma move_valid (b : Board) (d : Direction) (res : MoveResult) :
  is4x4 b -> validBoard b -> move b d = Some res -> validBoard (newBoard res).
Proof.
  intros Hb Hv Hmove.
  destruct (move_pipeline b d Hb)
    as (t & nb & Ht & Ht4 & _ & Hres & _ & _ & Hmove').
  rewrite Hmove' in Hmove. injection Hmove as <-. cbn [newBoard].
  apply (validBoard_fromLeft d (map slideAndMerge t) nb);
    [by apply is4x4_map_slide|done|].
  apply validBoard_map_slide. by apply (validBoard_toLeft d b t).
Qed.

Lemma validBoard_insert (b : Board) (r c : nat) (row : list Z) (v : Z) :
  validBoard b -> b !! r = Some row -> isTileValue v = true ->
  validBoard (<[r := <[c := v]> row]> b).
Proof.
  unfold validBoard. intros Hv Hr Ht. apply Forall_insert; [done|].
  apply Forall_insert; [|done]. rewrite Forall_lookup in Hv. by eapply Hv.
Qed.

(** ** Counting tiles *)

Lemma tilesIn_cons (v : Z) (l : list Z) :
  tilesIn (v :: l) = ((if decide (v ≠ 0)%Z then 1 else 0) + tilesIn l)%nat.
Proof.
  unfold tilesIn, removeZeros. rewrite filter_cons.
  by destruct (decide (v ≠ 0)).
Qed.

Lemma tilesIn_app (l1 l2 : list Z) : tilesIn (l1 ++ l2) = (tilesIn l1 + tilesIn l2)%nat.
Proof.
  unfold tilesIn, removeZeros. by rewrite list.filter_app, length_app.
Qed.

Lemma tileCount_cons (row : list Z) (b : Board) :
  tileCount (row :: b) = (tilesIn row + tileCount b)%nat.
Proof. unfold tileCount. simpl. apply tilesIn_app. Qed.

Lemma tilesIn_rev (l : list Z) : tilesIn (rev l) = tilesIn l.
Proof.
  induction l as [|v l IH]; [done|].
  simpl. rewrite tilesIn_app, IH, !tilesIn_cons. unfold tilesIn at 2. simpl. lia.
Qed.

Lemma tilesIn_slide (row : list Z) : (tilesIn (slideAndMerge row) <= tilesIn row)%nat.
Proof.
  unfold tilesIn. rewrite slideAndMerge_steps. unfold slideAndMergeLine.
  rewrite removeZeros_padTo by apply mergePairs_nonzero, removeZeros_nonzero.
  apply mergePairs_length.
Qed.

Lemma tileCount_map_slide (b : Board) :
  (tileCount (map slideAndMerge b) <= tileCount b)%nat.
Proof.
  induction b as [|row b IH]; [done|].
  simpl. rewrite !tileCount_cons. pose proof (tilesIn_slide row). lia.
Qed.

Lemma tileCount_reverseRows (b : Board) : tileCount (reverseRows b) = tileCount b.
Proof.
  induction b as [|row b IH]; [done|].
  simpl. by rewrite !tileCount_cons, IH, tilesIn_rev.
Qed.

Lemma tileCount_transpose (b t : Board) :
  is4x4 b -> transpose b = Some t -> tileCount t = tileCount b.
Proof.
  intros Hb Ht. board_cells b Hb. injection Ht as <-.
  cbn [seq length map]. rewrite !tileCount_cons, !tilesIn_cons.
  unfold tileCount, tilesIn. simpl. lia.
Qed.

Lemma tileCount_fromLeft (d : Direction) (b b' : Board) :
  is4x4 b -> fromLeft d b = Some b' -> tileCount b' = tileCount b.
Proof.
  intros Hb Hd. destruct d; cbn in Hd.
  - by apply tileCount_transpose.
  - rewrite <- (tileCount_reverseRows b).
    apply tileCount_transpose; [by apply is4x4_reverseRows|done].
  - by injection Hd as <-.
  - injection Hd as <-. apply tileCount_reverseRows.
Qed.

Lemma move_tiles (b : Board) (d : Direction) (res : MoveResult) :
  is4x4 b -> move b d = Some res ->
  (tileCount (newBoard res) <= tileCount b)%nat.
Proof.
  intros Hb Hmove.
  destruct (move_pipeline b d Hb)
    as (t & nb & Ht & Ht4 & Hback & Hres & _ & _ & Hmove').
  rewrite Hmove' in Hmove. injection Hmove as <-. cbn [newBoard].
  rewrite (tileCount_fromLeft d _ nb (is4x4_map_slide t Ht4) Hres).
  rewrite (tileCount_fromLeft d t b Ht4 Hback).
  apply tileCount_map_slide.
Qed.

Lemma tilesIn_insert (l : list Z) (i : nat) (v : Z) :
  l !! i = Some 0 -> v ≠ 0 -> tilesIn (<[i := v]> l) = S (tilesIn l).
Proof.
  revert i. induction l as [|a l IH]; intros i Hi Hv; [done|].
  destruct i as [|i]; cbn in Hi.
  - injection Hi as ->. change (<[0%nat := v]> (0 :: l)) with (v :: l).
    rewrite !tilesIn_cons. rewrite decide_True by done. by rewrite decide_False by lia.
  - change (<[S i := v]> (a :: l)) with (a :: <[i := v]> l).
    rewrite !tilesIn_cons, (IH i Hi Hv). lia.
Qed.

Lemma tileCount_insert (b : Board) (r : nat) (row row' : list Z) :
  b !! r = Some row ->
  (tileCount (<[r := row']> b) + tilesIn row = tileCount b + tilesIn row')%nat.
Proof.
  revert r. induction b as [|a b IH]; intros r Hr; [done|].
  destruct r as [|r]; cbn in Hr.
  - injection Hr as ->. change (<[0%nat := row']> (row :: b)) with (row' :: b).
    rewrite !tileCount_cons. lia.
  - change (<[S r := row']> (a :: b)) with (a :: <[r := row']> b).
    rewrite !tileCount_cons. specialize (IH r Hr). lia.
Qed.

Lemma tile_exists (b : Board) :
  (1 <= tileCount b)%nat -> exists r c v, v ≠ 0 /\ cellAt b r c = Some v.
Proof.
  unfold tileCount, tilesIn, removeZeros. intros Hcount.
  destruct (filter (fun v => v ≠ 0) (concat b)) as [|v l] eqn:Hf; [simpl in Hcount; lia|].
  assert (Hin : v ∈ filter (fun v => v ≠ 0) (concat b)) by (rewrite Hf; by left).
  apply list_elem_of_filter in Hin as [Hv Hin].
  apply list_elem_of_In, in_concat in Hin as (row & Hrow & Hvin).
  destruct (proj2 (cellAt_elem b v)) as (r & c & Hc).
  { exists row. split; by apply list_elem_of_In. }
  by exists r, c, v.
Qed.

Lemma tileOf_tile (u : Q) : tileOf u ≠ 0 /\ isTileValue (tileOf u) = true.
Proof. by destruct (tileOf_cases u) as [[-> _]|[-> _]]. Qed.

(** Everything the spawn does to a board with an empty cell. *)
Lemma spawn_effect (b : Board) (g : Rng) :
  is4x4 b -> rngValid g -> (exists r c, cellAt b r c = Some 0) ->
  exists (b' : Board) (r c : nat) (v : Z),
    addRandomTile b g = Some (b', {| draws := draws g; cursor := S (S (cursor g)) |})
    /\ (v = 2 \/ v = 4)
    /\ cellAt b r c = Some 0 /\ cellAt b' r c = Some v
    /\ (forall r' c', (r', c') ≠ (r, c) -> cellAt b' r' c' = cellAt b r' c')
    /\ is4x4 b'
    /\ (validBoard b -> validBoard b')
    /\ tileCount b' = S (tileCount b)
    /\ boardSum b' = boardSum b + v.
Proof.
  intros Hb Hg (r0 & c0 & H0).
  assert (He : emptyOf b ≠ []).
  { intros He. by apply (proj1 (emptyOf_nil b Hb) He r0 c0). }
  destruct (addRandomTile_place b g Hb Hg He)
    as (r & c & row & _ & _ & Hrow & Hc & Hadd).
  set (v := tileOf (draws g (S (cursor g)))) in *.
  destruct (tileOf_tile (draws g (S (cursor g)))) as [Hvnz Hvt]. fold v in Hvnz, Hvt.
  exists (<[r := <[c := v]> row]> b), r, c, v.
  split; [exact Hadd|].
  split; [unfold v; destruct (tileOf_cases (draws g (S (cursor g)))) as [[-> _]|[-> _]]; auto|].
  split; [by unfold cellAt; rewrite Hrow|].
  split; [by eapply cellAt_insert_eq|].
  split; [intros r' c' Hne; by apply cellAt_insert_ne|].
  split; [by apply is4x4_insert|].
  split; [intros Hv; by apply validBoard_insert|].
  split.
  - pose proof (tileCount_insert b r row (<[c := v]> row) Hrow) as Hcount.
    rewrite (tilesIn_insert row c v Hc Hvnz) in Hcount. lia.
  - rewrite (boardSum_insert b r row _ Hrow), (lineSum_insert row c 0 _ Hc). lia.
Qed.

Lemma mergePairs_half (l : list Z) : (length l <= 2 * length (mergePairs l))%nat.
Proof.
  induction l as [l IH] using (induction_ltof1 _ (@length Z)); unfold ltof in IH.
  destruct l as [|a [|b rest]]; [simpl; lia..|].
  rewrite mergePairs_cons2. case_bool_decide; cbn [length].
  - specialize (IH rest ltac:(simpl; lia)). lia.
  - specialize (IH (b :: rest) ltac:(simpl; lia)). cbn [length] in IH. lia.
Qed.

Lemma tilesIn_slide_half (row : list Z) :
  (tilesIn row <= 2 * tilesIn (slideAndMerge row))%nat.
Proof.
  unfold tilesIn. rewrite slideAndMerge_steps. unfold slideAndMergeLine.
  rewrite removeZeros_padTo by apply mergePairs_nonzero, removeZeros_nonzero.
  apply mergePairs_half.
Qed.

Lemma tileCount_map_slide_half (b : Board) :
  (tileCount b <= 2 * tileCount (map slideAndMerge b))%nat.
Proof.
  induction b as [|row b IH]; [done|].
  simpl. rewrite !tileCount_cons. pose proof (tilesIn_slide_half row). lia.
Qed.

Lemma move_tiles_half (b : Board) (d : Direction) (res : MoveResult) :
  is4x4 b -> move b d = Some res ->
  (tileCount b <= 2 * tileCount (newBoard res))%nat.
Proof.
  intros Hb Hmove.
  destruct (move_pipeline b d Hb)
    as (t & nb & Ht & Ht4 & Hback & Hres & _ & _ & Hmove').
  rewrite Hmove' in Hmove. injection Hmove as <-. cbn [newBoard].
  rewrite (tileCount_fromLeft d _ nb (is4x4_map_slide t Ht4) Hres).
  rewrite (tileCount_fromLeft d t b Ht4 Hback).
  apply tileCount_map_slide_half.
Qed.

(** A 4x4 board with fewer than sixteen tiles has an empty cell. *)
Lemma room_left (b : Board) :
  is4x4 b -> (tileCount b < SIZE * SIZE)%nat -> exists r c, cellAt b r c = Some 0.
Proof.
  intros Hb Hcount. apply cellAt_elem.
  destruct (decide (Exists (fun row => 0 ∈ row) b)) as [Hex|Hno].
  - apply Exists_exists in Hex as (row & Hin & H0). exists row.
    split; [by apply list_elem_of_In|done].
  - exfalso. apply not_Exists_Forall in Hno; [|intros row; apply _].
    board_cells b Hb.
    repeat match goal with
           | H : Forall _ (_ :: _) |- _ =>
               let Hr := fresh "Hr" in apply Forall_cons_1 in H as [Hr H]
           end.
    cbv [compose] in *.
    repeat match goal with
           | H : ¬ 0 ∈ [_; _; _; _] |- _ =>
               rewrite !elem_of_cons, elem_of_nil in H
           end.
    rewrite !tileCount_cons, !tilesIn_cons in Hcount.
    repeat match type of Hcount with
           | context [decide (?x ≠ 0)] =>
               rewrite (decide_True (P := x ≠ 0)) in Hcount by (intros ->; tauto)
           end.
    unfold tileCount, tilesIn, SIZE in Hcount. simpl in Hcount. lia.
Qed.

(** ** One input *)

Lemma rngValid_advance (g : Rng) (n : nat) :
  rngValid g -> rngValid {| draws := draws g; cursor := n |}.
Proof. intros Hg k. apply Hg. Qed.

(** The two outcomes of [handleMove]. *)
Lemma handleMove_cases (s : Session) (d : Direction) (g : Rng) :
  is4x4 (board s) -> rngValid g ->
  (handleMove s d g = Some (s, g)
   /\ (gameOver s = true
       \/ exists res, move (board s) d = Some res /\ moved res = false))
  \/ (gameOver s = false
      /\ exists (res : MoveResult) (added : Board) (v : Z) (h : bool),
          move (board s) d = Some res /\ moved res = true
          /\ (v = 2 \/ v = 4)
          /\ is4x4 added
          /\ (validBoard (board s) -> validBoard added)
          /\ tileCount added = S (tileCount (newBoard res))
          /\ (tileCount (newBoard res) <= tileCount (board s))%nat
          /\ (tileCount (board s) <= 2 * tileCount (newBoard res))%nat
          /\ boardSum added = boardSum (board s) + v
          /\ hasMoves added = Some h
          /\ handleMove s d g
             = Some ({| board := added; score := boardSum added; gameOver := negb h |},
                     {| draws := draws g; cursor := S (S (cursor g)) |})).
Proof.
  intros Hb Hg. unfold handleMove.
  destruct (gameOver s) eqn:Hover; [left; auto|].
  destruct (move_sum (board s) d Hb) as (res & Hmove & Hres4 & Hsum).
  rewrite Hmove. cbn [mbind option_bind].
  destruct (moved res) eqn:Hmoved; cbn [negb]; [right|left; eauto].
  split; [done|].
  destruct (moved_leaves_empty (board s) d res Hb Hmove Hmoved) as [_ Hz].
  destruct (spawn_effect (newBoard res) g Hres4 Hg Hz)
    as (added & r & c & v & Hadd & Hv & _ & _ & _ & Hadded4 & Hvalid & Hcount & Hsum').
  exists res, added, v. eexists.
  split; [done|]. split; [done|]. split; [done|]. split; [done|].
  split; [intros Hval; apply Hvalid; by apply (move_valid (board s) d res)|].
  split; [done|]. split; [by apply (move_tiles (board s) d res)|].
  split; [by apply (move_tiles_half (board s) d res)|].
  split; [lia|]. split; [by apply hasMoves_cells|].
  rewrite Hadd. cbn [mbind option_bind fst snd].
  rewrite (hasMoves_cells added Hadded4). cbn [mbind option_bind].
  by destruct (existsb _ _).
Qed.

Lemma sessionOk_step (s s' : Session) (d : Direction) (g g' : Rng) :
  sessionOk s -> rngValid g -> handleMove s d g = Some (s', g') ->
  sessionOk s' /\ rngValid g'
  /\ boardSum (board s) <= boardSum (board s')
  /\ (s' = s \/ score s' = boardSum (board s')).
Proof.
  intros (Hb & Hvalid & Htiles & Hhas) Hg Hstep.
  destruct (handleMove_cases s d g Hb Hg)
    as [[Hsame _]|(_ & res & added & v & h & _ & _ & Hv & Hadded4 & Hval & Hcount
                   & _ & Hhalf & Hsum & Hh & Hacc)].
  - rewrite Hsame in Hstep. injection Hstep as <- <-.
    split; [done|]. split; [done|]. split; [lia|by left].
  - rewrite Hacc in Hstep. injection Hstep as <- <-. cbn [board score gameOver].
    split; [|split; [by apply rngValid_advance|split; [lia|by right]]].
    unfold sessionOk. cbn [board gameOver].
    split; [done|]. split; [by apply Hval|]. split; [lia|].
    by rewrite negb_involutive.
Qed.

(** ** The score *)

Lemma isTileValue_nonneg (v : Z) : isTileValue v = true -> 0 <= v.
Proof.
  unfold isTileValue. intros H.
  apply orb_true_iff in H as [H|H]; [lia|].
  apply andb_true_iff in H as [H _]. lia.
Qed.

Lemma lineSum_nonneg (l : list Z) : Forall (fun v => 0 <= v) l -> 0 <= lineSum l.
Proof.
  induction 1 as [|x l Hx Hl IH]; [done|]. rewrite lineSum_cons. lia.
Qed.

(** The cell-by-cell sum is the value of the exact reduce. *)
Lemma cellTotal_boardSum (b : Board) : is4x4 b -> cellTotal b = boardSum b.
Proof.
  intros Hb. board_cells b Hb. unfold cellTotal, boardSum. simpl. lia.
Qed.

(** An addition whose exact result is a natural number below 2^53 is not
    rounded. *)
Lemma addNumbers_exact (a b : Z) : 0 <= a + b < 2 ^ 53 -> addNumbers a b = a + b.
Proof.
  intros H. unfold addNumbers.
  rewrite (Qfloor_comp _ _ (binary64_integer (a + b) H)). apply Qfloor_Z.
Qed.

Lemma fold_addNumbers (l : list Z) :
  forall acc : Z,
    Forall (fun v => 0 <= v) l -> 0 <= acc -> acc + lineSum l < 2 ^ 53 ->
    fold_left addNumbers l acc = acc + lineSum l.
Proof.
  induction l as [|x l IH]; intros acc Hl Hacc Hsum.
  - unfold lineSum. simpl. lia.
  - apply Forall_cons_1 in Hl as [Hx Hl]. rewrite lineSum_cons in Hsum |- *.
    pose proof (lineSum_nonneg l Hl) as Hnn.
    cbn [fold_left]. rewrite addNumbers_exact by lia. rewrite IH; [lia|done|lia|lia].
Qed.

(** On a board of tiles whose sum is below 2^53 the binary64 reduce of the
    code rounds nothing: it returns the cell-by-cell sum, as the exact
    reduce does. *)
Lemma score_exact (b : Board) :
  is4x4 b -> validBoard b -> cellTotal b < 2 ^ 53 ->
  scoreInBinary64 b = cellTotal b /\ boardSum b = cellTotal b.
Proof.
  intros Hb Hv Hbound. rewrite (cellTotal_boardSum b Hb) in Hbound |- *.
  split; [|done]. unfold scoreInBinary64, boardSum in *.
  fold (lineSum (concat b)) in Hbound |- *.
  rewrite fold_addNumbers; [lia| |lia|lia].
  apply Forall_concat. eapply Forall_impl; [|exact Hv]. intros row Hrow. cbv beta in Hrow.
  eapply Forall_impl; [|exact Hrow]. intros v Ht. by apply isTileValue_nonneg.
Qed.

(** An accepted input, cell by cell. *)
Lemma handleMove_accept (s : Session) (d : Direction) (g : Rng) (res : MoveResult) :
  is4x4 (board s) -> validBoard (board s) -> cellTotal (board s) + 4 < 2 ^ 53 ->
  rngValid g -> gameOver s = false ->
  move (board s) d = Some res -> moved res = true ->
  exists (added : Board) (h : bool) (r c : nat) (v : Z),
    addRandomTile (newBoard res) g
    = Some (added, {| draws := draws g; cursor := S (S (cursor g)) |})
    /\ cellAt (newBoard res) r c = Some 0
    /\ cellAt added r c = Some v /\ (v = 2 \/ v = 4)
    /\ (forall r' c', (r', c') ≠ (r, c) ->
        cellAt added r' c' = cellAt (newBoard res) r' c')
    /\ hasMoves added = Some h
    /\ handleMove s d g
       = Some ({| board := added; score := cellTotal added; gameOver := negb h |},
               {| draws := draws g; cursor := S (S (cursor g)) |})
    /\ cellTotal added = cellTotal (board s) + v
    /\ scoreInBinary64 added = cellTotal added
    /\ is4x4 added /\ validBoard added
    /\ tileCount added = S (tileCount (newBoard res))
    /\ (tileCount (newBoard res) <= tileCount (board s))%nat.
Proof.
  intros Hb Hvalid Hbound Hg Hover Hmove Hmoved.
  destruct (moved_leaves_empty (board s) d res Hb Hmove Hmoved) as [Hres4 Hz].
  destruct (move_sum (board s) d Hb) as (res' & Hmove' & _ & Hsum).
  assert (res' = res) as -> by congruence.
  destruct (spawn_effect (newBoard res) g Hres4 Hg Hz)
    as (added & r & c & v & Hadd & Hv & H0 & Hcell & Hrest & Hadded4 & Hval & Hcount & Hsum').
  assert (Hvalid' : validBoard added).
  { apply Hval. by apply (move_valid (board s) d res). }
  assert (Htotal : cellTotal added = cellTotal (board s) + v).
  { rewrite !cellTotal_boardSum by done. lia. }
  destruct (score_exact added Hadded4 Hvalid') as [Hscore Hsame]; [lia|].
  exists added. eexists. exists r, c, v.
  split; [exact Hadd|]. split; [done|]. split; [done|]. split; [done|]. split; [done|].
  split; [by apply hasMoves_cells|].
  split.
  { unfold handleMove. rewrite Hover, Hmove. cbn [mbind option_bind].
    rewrite Hmoved. cbn [negb]. rewrite Hadd. cbn [mbind option_bind fst snd].
    rewrite (hasMoves_cells added Hadded4). cbn [mbind option_bind].
    rewrite Hsame. by destruct (existsb _ _). }
  split; [done|]. split; [done|]. split; [done|]. split; [done|]. split; [done|].
  by apply (move_tiles (board s) d res).
Qed.

(** C6.  On a session that is not over, whose board holds tiles summing to
    less than 2^53 - 4, an input whose move reports [moved = true] yields
    the session whose board is the moved board with one tile spawned on it
    (an empty cell of the moved board receives 2 or 4, the other cells are
    kept), whose score is the sum of the sixteen cells of that board, which
    is also what the reduce of the code returns in binary64 arithmetic, and
    whose [gameOver] is true exactly when [hasMoves] is false on that
    board. *)
Theorem handleMove_accepted (s : Session) (d : Direction) (g : Rng) (res : MoveResult) :
  is4x4 (board s) -> validBoard (board s) -> cellTotal (board s) + 4 < 2 ^ 53 ->
  rngValid g -> gameOver s = false ->
  move (board s) d = Some res -> moved res = true ->
  exists (added : Board) (g' : Rng) (h : bool) (r c : nat) (v : Z),
    addRandomTile (newBoard res) g = Some (added, g')
    /\ cellAt (newBoard res) r c = Some 0
    /\ cellAt added r c = Some v /\ (v = 2 \/ v = 4)
    /\ (forall r' c', (r', c') ≠ (r, c) ->
        cellAt added r' c' = cellAt (newBoard res) r' c')
    /\ hasMoves added = Some h
    /\ handleMove s d g
       = Some ({| board := added; score := cellTotal added; gameOver := negb h |}, g')
    /\ cellTotal added = cellTotal (board s) + v
    /\ scoreInBinary64 added = cellTotal added.
Proof.
  intros Hb Hvalid Hbound Hg Hover Hmove Hmoved.
  destruct (handleMove_accept s d g res Hb Hvalid Hbound Hg Hover Hmove Hmoved)
    as (added & h & r & c & v & Hadd & H0 & Hcell & Hv & Hrest & Hh & Hstep
        & Htotal & Hscore & _).
  exists added. eexists. by exists h, r, c, v.
Qed.

Lemma handleMove_accepted_witness :
  handleMove {| board := sampleBoard; score := 0; gameOver := false |} left sampleRng
  = Some ({| board := [[4; 4; 0; 0]; [0; 0; 0; 4]; [2; 0; 0; 0]; [2; 8; 0; 0]];
             score := 24; gameOver := false |},
          {| draws := draws sampleRng; cursor := 2 |}).
Proof.
  destruct (handleMove_accepted
              {| board := sampleBoard; score := 0; gameOver := false |} left sampleRng
              {| newBoard := [[4; 4; 0; 0]; [0; 0; 0; 0]; [2; 0; 0; 0]; [2; 8; 0; 0]];
                 moved := true |})
    as (added & g' & h & r & c & v & Hadd & _ & _ & _ & _ & Hh & Hstep & _).
  - apply is4x4_cells.
  - by repeat constructor.
  - vm_compute. reflexivity.
  - intros n. unfold sampleRng, draws. destruct (Nat.even n); split; unfold Qle, Qlt; simpl; lia.
  - reflexivity.
  - vm_compute. reflexivity.
  - reflexivity.
  - vm_compute in Hadd. injection Hadd as <- <-.
    vm_compute in Hh. injection Hh as <-.
    rewrite Hstep. reflexivity.
Defined.

(** X3.  On a 4x4 board of tiles summing to less than 2^53 - 4, and with a
    valid random source, [handleMove] always returns, and either nothing
    changes (session and random source as they were) or the input is
    accepted: two draws are consumed, the sum of the cells grows by exactly
    2 or 4, the score becomes the new sum of the cells, which is also the
    result of the reduce in binary64 arithmetic, and the number of tiles
    grows by at most one. *)
Theorem handleMove_effect (s : Session) (d : Direction) (g : Rng) :
  is4x4 (board s) -> validBoard (board s) -> cellTotal (board s) + 4 < 2 ^ 53 ->
  rngValid g ->
  exists s' g', handleMove s d g = Some (s', g')
    /\ ((s' = s /\ g' = g)
        \/ (exists v, (v = 2 \/ v = 4)
              /\ cellTotal (board s') = cellTotal (board s) + v
              /\ score s' = cellTotal (board s')
              /\ scoreInBinary64 (board s') = cellTotal (board s')
              /\ cursor g' = S (S (cursor g))
              /\ draws g' = draws g
              /\ (tileCount (board s') <= S (tileCount (board s)))%nat)).
Proof.
  intros Hb Hvalid Hbound Hg.
  destruct (handleMove_cases s d g Hb Hg)
    as [[Hsame _]|(Hover & res & added & v & h & Hmove & Hmoved & _)].
  - exists s, g. split; [done|by left].
  - destruct (handleMove_accept s d g res Hb Hvalid Hbound Hg Hover Hmove Hmoved)
      as (added' & h' & r & c & v' & _ & _ & _ & Hv & _ & _ & Hstep
          & Htotal & Hscore & _ & _ & Hcount & Hle).
    eexists _, _. split; [exact Hstep|]. right. exists v'.
    cbn [board score cursor draws].
    split; [done|]. split; [done|]. split; [done|]. split; [done|].
    split; [done|]. split; [done|]. lia.
Qed.

Lemma handleMove_effect_witness :
  exists s' g',
    handleMove {| board := sampleBoard; score := 0; gameOver := false |} up sampleRng
    = Some (s', g')
    /\ score s' = 24.
Proof.
  destruct (handleMove_effect
              {| board := sampleBoard; score := 0; gameOver := false |} up sampleRng)
    as (s' & g' & Hstep & _).
  - apply is4x4_cells.
  - by repeat constructor.
  - vm_compute. reflexivity.
  - intros n. unfold sampleRng, draws. destruct (Nat.even n); split; unfold Qle, Qlt; simpl; lia.
  - exists s', g'. split; [done|].
    vm_compute in Hstep. by injection Hstep as <- _.
Defined.

(** ** The game from its first render *)

Lemma createEmptyBoard_facts :
  is4x4 createEmptyBoard /\ validBoard createEmptyBoard
  /\ tileCount createEmptyBoard = 0%nat /\ boardSum createEmptyBoard = 0
  /\ cellAt createEmptyBoard 0 0 = Some 0.
Proof.
  split; [apply is4x4_cells|]. split; [by repeat constructor|]. by repeat split.
Qed.

Lemma hasMoves_room (b : Board) :
  is4x4 b -> (tileCount b < SIZE * SIZE)%nat -> hasMoves b = Some true.
Proof.
  intros Hb Hcount. destruct (hasMoves_true_iff b Hb) as (h & Hh & Hiff).
  rewrite Hh. f_equal. apply Hiff. left. by apply room_left.
Qed.

Lemma initialSession_ok (g : Rng) :
  rngValid g ->
  exists s g',
    initialSession g = Some (s, g')
    /\ sessionOk s /\ rngValid g'
    /\ tileCount (board s) = 2%nat
    /\ score s = 0 /\ gameOver s = false
    /\ (boardSum (board s) = 4 \/ boardSum (board s) = 6 \/ boardSum (board s) = 8)
    /\ cursor g' = (cursor g + 4)%nat.
Proof.
  intros Hg.
  destruct createEmptyBoard_facts as (H04 & H0v & H0c & H0s & H0z).
  destruct (spawn_effect createEmptyBoard g H04 Hg)
    as (b1 & r1 & c1 & v1 & Hadd1 & Hv1 & _ & _ & _ & Hb1 & Hval1 & Hc1 & Hs1); [eauto|].
  set (g1 := {| draws := draws g; cursor := S (S (cursor g)) |}) in *.
  assert (Hg1 : rngValid g1) by by apply rngValid_advance.
  destruct (spawn_effect b1 g1 Hb1 Hg1)
    as (b2 & r2 & c2 & v2 & Hadd2 & Hv2 & _ & _ & _ & Hb2 & Hval2 & Hc2 & Hs2).
  { apply room_left; [done|]. rewrite Hc1, H0c. unfold SIZE. lia. }
  eexists _, _. unfold initialSession. rewrite Hadd1. cbn [mbind option_bind fst snd].
  rewrite Hadd2. cbn [mbind option_bind fst snd]. split; [reflexivity|].
  unfold sessionOk. cbn [board score gameOver cursor negb].
  assert (Hcount : tileCount b2 = 2%nat) by lia.
  split; [|split; [by apply rngValid_advance|]].
  - split; [done|]. split; [by apply Hval2, Hval1|]. split; [lia|].
    apply hasMoves_room; [done|]. rewrite Hcount. unfold SIZE. lia.
  - split; [done|]. split; [done|]. split; [done|]. split; [lia|]. unfold g1. cbn. lia.
Qed.

Lemma sessionOk_run (directions : list Direction) :
  forall (s : Session) (g : Rng),
    sessionOk s -> rngValid g ->
    exists s' g',
      handleMoves s directions g = Some (s', g')
      /\ sessionOk s' /\ rngValid g'
      /\ boardSum (board s) <= boardSum (board s')
      /\ (s' = s \/ score s' = boardSum (board s')).
Proof.
  induction directions as [|d rest IH]; intros s g Hok Hg.
  - exists s, g. split; [done|]. split; [done|]. split; [done|]. split; [lia|by left].
  - destruct (handleMove_cases s d g (proj1 Hok) Hg)
      as [[Hsame _]|(_ & res & added & v & h & _ & _ & _ & _ & _ & _ & _ & _ & _ & _ & Hacc)].
    + cbn [handleMoves]. rewrite Hsame. by apply IH.
    + destruct (sessionOk_step s _ d g _ Hok Hg Hacc) as (Hok1 & Hg1 & Hsum1 & Hscore1).
      destruct (IH _ _ Hok1 Hg1) as (s' & g' & Hrun & Hok' & Hg' & Hsum' & Hscore').
      exists s', g'. cbn [handleMoves]. rewrite Hacc.
      split; [done|]. split; [done|]. split; [done|]. split; [lia|].
      right. destruct Hscore' as [->|]; [|done].
      destruct Hscore1 as [Heq|]; [|done]. reflexivity.
Qed.

(** X4.  The first render starts a well-formed game: the initial board is
    4x4, holds exactly two tiles with values 2 or 4 (board sum 4, 6 or 8)
    and therefore has moves; [gameOver] is false and the score is 0, not the
    board sum; four draws are consumed. *)
Theorem initialSession_spec (g : Rng) :
  rngValid g ->
  exists s g',
    initialSession g = Some (s, g')
    /\ sessionOk s
    /\ tileCount (board s) = 2%nat
    /\ score s = 0 /\ gameOver s = false
    /\ (boardSum (board s) = 4 \/ boardSum (board s) = 6 \/ boardSum (board s) = 8)
    /\ cursor g' = (cursor g + 4)%nat.
Proof.
  intros Hg.
  destruct (initialSession_ok g Hg) as (s & g' & H & Hok & _ & Hrest).
  by exists s, g'.
Qed.

Lemma initialSession_spec_witness :
  exists s g', initialSession sampleRng = Some (s, g')
               /\ boardSum (board s) = 8 /\ score s = 0.
Proof.
  destruct (initialSession_spec sampleRng) as (s & g' & Hinit & _ & _ & Hscore & _).
  - intros n. unfold sampleRng, draws. destruct (Nat.even n); split; unfold Qle, Qlt; simpl; lia.
  - exists s, g'. split; [done|]. split; [|done].
    vm_compute in Hinit. by injection Hinit as <- _.
Defined.

(** Every input adds at most 4 to the sum of the cells. *)
Lemma handleMoves_sum_bound (directions : list Direction) :
  forall (s s' : Session) (g g' : Rng),
    is4x4 (board s) -> rngValid g ->
    handleMoves s directions g = Some (s', g') ->
    boardSum (board s') <= boardSum (board s) + 4 * Z.of_nat (length directions).
Proof.
  induction directions as [|d rest IH]; intros s s' g g' Hb Hg Hrun.
  - injection Hrun as <- <-. simpl. lia.
  - cbn [handleMoves] in Hrun.
    destruct (handleMove_cases s d g Hb Hg)
      as [[Hsame _]|(_ & res & added & v & h & _ & _ & Hv & Hadded4 & _ & _ & _ & _
                     & Hsum & _ & Hacc)].
    + rewrite Hsame in Hrun. specialize (IH _ _ _ _ Hb Hg Hrun).
      cbn [length]. lia.
    + rewrite Hacc in Hrun.
      pose proof (fun H => IH _ _ _ _ H (rngValid_advance g _ Hg) Hrun) as Hup.
      specialize (Hup Hadded4).
      cbn [board length] in Hup |- *. lia.
Qed.

(** X5.  Every sequence of [n] inputs keeps a well-formed session whose
    cells sum to less than 2^53 - 4n well-formed: [handleMoves] returns,
    the board stays 4x4 with every cell 0 or a power of two, it keeps at
    least two tiles, [gameOver] stays the negation of [hasMoves] on the
    stored board, the sum of the cells never decreases and grows by at most
    4 per input, the score equals the sum of the cells as soon as the
    session has changed, and on the final board the reduce of the code
    returns that sum in binary64 arithmetic too. *)
Theorem sessionOk_preserved (s : Session) (g : Rng) (directions : list Direction) :
  sessionOk s -> rngValid g ->
  cellTotal (board s) + 4 * Z.of_nat (length directions) < 2 ^ 53 ->
  exists s' g',
    handleMoves s directions g = Some (s', g')
    /\ sessionOk s'
    /\ cellTotal (board s) <= cellTotal (board s')
       <= cellTotal (board s) + 4 * Z.of_nat (length directions)
    /\ (s' = s \/ score s' = cellTotal (board s'))
    /\ scoreInBinary64 (board s') = cellTotal (board s').
Proof.
  intros Hok Hg Hbound.
  destruct (sessionOk_run directions s g Hok Hg)
    as (s' & g' & Hrun & Hok' & _ & Hsum & Hscore).
  pose proof (handleMoves_sum_bound directions s s' g g' (proj1 Hok) Hg Hrun) as Hup.
  destruct Hok' as (Hb' & Hv' & Hrest').
  rewrite <- (cellTotal_boardSum (board s) (proj1 Hok)) in Hsum, Hup.
  rewrite <- (cellTotal_boardSum (board s') Hb') in Hsum, Hup, Hscore.
  destruct (score_exact (board s') Hb' Hv') as [Hexact _]; [lia|].
  exists s', g'. split; [done|]. split; [done|]. split; [lia|]. by split.
Qed.

Lemma sessionOk_preserved_witness :
  exists s' g',
    handleMoves {| board := sampleBoard; score := 0; gameOver := false |}
                [left; up; left] sampleRng = Some (s', g')
    /\ sessionOk s' /\ score s' = 32.
Proof.
  destruct (sessionOk_preserved
              {| board := sampleBoard; score := 0; gameOver := false |}
              sampleRng [left; up; left])
    as (s' & g' & Hrun & Hok & _).
  - split; [apply is4x4_cells|]. split; [by repeat constructor|].
    split; [vm_compute; lia|reflexivity].
  - intros n. unfold sampleRng, draws. destruct (Nat.even n); split; unfold Qle, Qlt; simpl; lia.
  - vm_compute. reflexivity.
  - exists s', g'. split; [done|]. split; [done|].
    vm_compute in Hrun. by injection Hrun as <- _.
Defined.

Lemma gameOver_iff_stuck (s : Session) :
  sessionOk s ->
  gameOver s = true
  <-> forall d, exists res, move (board s) d = Some res /\ moved res = false.
Proof.
  intros (Hb & _ & Htiles & Hhas).
  destruct (stuck_iff_no_move (board s) Hb) as (h & Hh & Hstuck & Hfree).
  assert (h = negb (gameOver s)) as -> by congruence.
  split.
  - intros Hover. apply Hstuck. by rewrite Hover.
  - intros Hall. destruct (gameOver s); [done|]. exfalso.
    destruct Hfree as (d & res & Hmove & Hmoved); [apply tile_exists; lia|done|].
    destruct (Hall d) as (res' & Hmove' & Hmoved'). congruence.
Qed.

(** X6.  In a well-formed session the game is over exactly when it is
    stuck: [gameOver] is true if and only if every one of the four moves is
    rejected on the stored board. *)
Theorem gameOver_exact (s : Session) :
  sessionOk s ->
  gameOver s = true
  <-> forall d, exists res, move (board s) d = Some res /\ moved res = false.
Proof. apply gameOver_iff_stuck. Qed.

Lemma gameOver_exact_witness :
  exists res, move fullBoard right = Some res /\ moved res = false.
Proof.
  assert (Hok : sessionOk {| board := fullBoard; score := 48; gameOver := true |}).
  { split; [apply is4x4_cells|]. split; [by repeat constructor|].
    split; [vm_compute; lia|reflexivity]. }
  apply (proj1 (gameOver_exact _ Hok) eq_refl right).
Defined.

(** X7.  Throughout a game: for a valid random source the first render
    returns a session, every sequence of inputs applied to it returns a
    session, and that session is well-formed, is over exactly when all four
    moves are rejected, and shows a score equal to its board sum unless it
    is still the initial session. *)
Theorem game_invariant (g : Rng) (directions : list Direction) :
  rngValid g ->
  exists s0 g0 s g',
    initialSession g = Some (s0, g0)
    /\ handleMoves s0 directions g0 = Some (s, g')
    /\ sessionOk s
    /\ (gameOver s = true
        <-> forall d, exists res, move (board s) d = Some res /\ moved res = false)
    /\ (s = s0 \/ score s = boardSum (board s)).
Proof.
  intros Hg.
  destruct (initialSession_ok g Hg) as (s0 & g0 & Hinit & Hok0 & Hg0 & _).
  destruct (sessionOk_run directions s0 g0 Hok0 Hg0)
    as (s & g' & Hrun & Hok & _ & _ & Hscore).
  exists s0, g0, s, g'. split; [done|]. split; [done|]. split; [done|].
  split; [by apply gameOver_iff_stuck|done].
Qed.

Lemma game_invariant_witness :
  exists s0 g0 s g',
    initialSession sampleRng = Some (s0, g0)
    /\ handleMoves s0 [down; right; down; left] g0 = Some (s, g')
    /\ sessionOk s.
Proof.
  destruct (game_invariant sampleRng [down; right; down; left])
    as (s0 & g0 & s & g' & Hinit & Hrun & Hok & _).
  - intros n. unfold sampleRng, draws. destruct (Nat.even n); split; unfold Qle, Qlt; simpl; lia.
  - exists s0, g0, s, g'. split; [exact Hinit|]. split; [exact Hrun|exact Hok].
Defined.

(** ** What a move leaves behind *)

Lemma slid_rows_no_gap (t : Board) : ~ canSlide left (map slideAndMerge t).
Proof.
  rewrite canSlide_left_Exists, Exists_exists.
  intros (row' & Hin & Hgap). apply in_map_iff in Hin as (row & <- & _).
  destruct (slide_is_compact row) as (g & k & Hs & Hg & _).
  rewrite Hs in Hgap. by apply (compact_no_gap g k Hg).
Qed.

Lemma move_settles (b : Board) (d : Direction) (res : MoveResult) :
  is4x4 b -> move b d = Some res -> ~ canSlide d (newBoard res).
Proof.
  intros Hb Hmove.
  destruct (move_pipeline b d Hb)
    as (t & nb & _ & _ & _ & _ & Hres4 & Hfwd & Hmove').
  rewrite Hmove' in Hmove. injection Hmove as <-. cbn [newBoard].
  rewrite <- (toLeft_canSlide d nb _ Hres4 Hfwd). apply slid_rows_no_gap.
Qed.

(** X8.  After a move in direction [d] on a 4x4 board no tile of the
    returned board has an empty cell ahead of it in direction [d]: a second
    move in that direction can only merge, never slide. *)
Theorem move_leaves_no_gap (b : Board) (d : Direction) :
  is4x4 b ->
  exists res, move b d = Some res /\ ~ canSlide d (newBoard res).
Proof.
  intros Hb. destruct (move_sum b d Hb) as (res & Hmove & _).
  exists res. split; [done|]. by apply (move_settles b d res).
Qed.

Lemma move_leaves_no_gap_witness :
  exists res, move sampleBoard down = Some res /\ ~ canSlide down (newBoard res).
Proof.
  apply (move_leaves_no_gap sampleBoard down). apply is4x4_cells.
Defined.

(** X9.  A move on a 4x4 board returns a 4x4 board, keeps every cell 0 or a
    power of two if the input has only such cells, never increases the
    number of tiles and at most halves it. *)
Theorem move_invariants (b : Board) (d : Direction) :
  is4x4 b ->
  exists res,
    move b d = Some res
    /\ is4x4 (newBoard res)
    /\ (validBoard b -> validBoard (newBoard res))
    /\ (tileCount (newBoard res) <= tileCount b)%nat
    /\ (tileCount b <= 2 * tileCount (newBoard res))%nat.
Proof.
  intros Hb. destruct (move_sum b d Hb) as (res & Hmove & Hres4 & _).
  exists res. split; [done|]. split; [done|].
  split; [intros Hv; by apply (move_valid b d res)|].
  split; [by apply (move_tiles b d res)|by apply (move_tiles_half b d res)].
Qed.

Lemma move_invariants_witness :
  exists res,
    move [[2; 2; 2; 2]; [4; 4; 4; 4]; [2; 2; 2; 2]; [8; 8; 8; 8]] left = Some res
    /\ tileCount (newBoard res) = 8%nat.
Proof.
  destruct (move_invariants [[2; 2; 2; 2]; [4; 4; 4; 4]; [2; 2; 2; 2]; [8; 8; 8; 8]] left
              (is4x4_cells _ _ _ _ _ _ _ _ _ _ _ _ _ _ _ _))
    as (res & Hmove & _ & _ & Hle & Hhalf).
  exists res. split; [done|].
  vm_compute in Hmove. by injection Hmove as <-.
Defined.

(** X10.  On a 4x4 board with an empty cell the spawn adds exactly one
    tile, keeps the board 4x4 and keeps every cell 0 or a power of two if the
    input has only such cells. *)
Theorem addRandomTile_invariants (b : Board) (g : Rng) :
  is4x4 b -> rngValid g -> (exists r c, cellAt b r c = Some 0) ->
  exists b' g',
    addRandomTile b g = Some (b', g')
    /\ is4x4 b'
    /\ (validBoard b -> validBoard b')
    /\ tileCount b' = S (tileCount b).
Proof.
  intros Hb Hg Hz.
  destruct (spawn_effect b g Hb Hg Hz)
    as (b' & r & c & v & Hadd & _ & _ & _ & _ & Hb' & Hval & Hcount & _).
  by eexists b', _.
Qed.

Lemma addRandomTile_invariants_witness :
  exists b' g',
    addRandomTile sampleBoard sampleRng = Some (b', g')
    /\ tileCount b' = 7%nat.
Proof.
  destruct (addRandomTile_invariants sampleBoard sampleRng)
    as (b' & g' & Hadd & _ & _ & Hcount).
  - apply is4x4_cells.
  - intros n. unfold sampleRng, draws. destruct (Nat.even n); split; unfold Qle, Qlt; simpl; lia.
  - by exists 0%nat, 3%nat.
  - exists b', g'. split; [exact Hadd|exact Hcount].
Defined.

(** ** The shape of a slid line *)

(** X11.  For every line, of any length, [slideAndMerge] returns a run of
    non-zero values followed only by zeros; the run is never longer than the
    line, the result is never shorter than [SIZE], is exactly [SIZE] long
    for lines of at most [SIZE] entries, and is never truncated. *)
Theorem slideAndMerge_shape (row : list Z) :
  exists g k,
    slideAndMerge row = g ++ replicate k 0
    /\ Forall (fun v => v ≠ 0) g
    /\ (length g <= length row)%nat
    /\ length (slideAndMerge row) = Nat.max SIZE (length g)
    /\ ((length row <= SIZE)%nat -> length (slideAndMerge row) = SIZE).
Proof.
  destruct (slide_is_compact row) as (g & k & Hs & Hg & Hgdef & Hk).
  exists g, k. split; [done|]. split; [done|].
  assert (Hlen : (length g <= length row)%nat).
  { rewrite Hgdef. pose proof (mergePairs_length (removeZeros row)).
    pose proof (removeZeros_length row). lia. }
  split; [done|]. split.
  - rewrite Hs, length_app, length_replicate. lia.
  - intros Hle. by apply slideAndMerge_length.
Qed.

(** X12.  A line of [SIZE] entries is returned unchanged by [slideAndMerge]
    exactly when it has no zero immediately before a non-zero value and no
    two equal non-zero values side by side. *)
Theorem slideAndMerge_fixed_iff (row : list Z) :
  length row = SIZE ->
  slideAndMerge row = row <-> ~ lineGap row /\ ~ linePair row.
Proof.
  intros Hlen. pose proof (slide_changes_iff row Hlen) as Hiff.
  destruct (decide (slideAndMerge row = row)) as [Heq|Hne]; tauto.
Qed.

Lemma slideAndMerge_fixed_iff_witness :
  ~ lineGap [2; 4; 8; 0] /\ ~ linePair [2; 4; 8; 0].
Proof.
  apply (slideAndMerge_fixed_iff [2; 4; 8; 0]); reflexivity.
Defined.

Lemma slideAndMerge_shape_witness :
  length (slideAndMerge [2; 2]) = SIZE
  /\ length (slideAndMerge [2; 4; 2; 4; 2; 4]) = 6%nat.
Proof.
  split.
  - destruct (slideAndMerge_shape [2; 2]) as (g & k & _ & _ & _ & _ & Hlen).
    apply Hlen. unfold SIZE. simpl. lia.
  - reflexivity.
Defined.

(** ** Transposing and mirroring *)

Lemma board_ext (b b' : Board) :
  length b = length b' ->
  (forall i j, cellAt b i j = cellAt b' i j) -> b = b'.
Proof.
  intros Hlen Hcell. apply list_eq. intros i.
  destruct (b !! i) as [row|] eqn:Hrow.
  - destruct (lookup_lt_is_Some_2 b' i) as [row' Hrow'].
    { rewrite <- Hlen. by eapply lookup_lt_Some. }
    rewrite Hrow'. f_equal. apply list_eq. intros j.
    specialize (Hcell i j). unfold cellAt in Hcell. by rewrite Hrow, Hrow' in Hcell.
  - symmetry. apply lookup_ge_None. rewrite <- Hlen. by apply lookup_ge_None.
Qed.

Lemma column_lookup (b : Board) (n i : nat) :
  Forall (fun row => length row = n) b -> (i < n)%nat ->
  exists col, mapM (fun row : list Z => row !! i) b = Some col
              /\ length col = length b
              /\ forall j, col !! j = cellAt b j i.
Proof.
  intros Hrows Hi.
  destruct (mapM_is_Some_2 (fun row : list Z => row !! i) b) as [col Hcol].
  { eapply Forall_impl; [|exact Hrows]. intros row Hr. simpl in *.
    apply lookup_lt_is_Some_2. lia. }
  exists col. split; [done|]. apply mapM_Some_1 in Hcol.
  split; [symmetry; by eapply list.Forall2_length|].
  intros j. unfold cellAt. destruct (b !! j) as [row|] eqn:Hrow.
  - destruct (Forall2_lookup_l _ _ _ j row Hcol Hrow) as (v & Hv & Hrv).
    cbn. by rewrite Hv, Hrv.
  - cbn. apply lookup_ge_None. rewrite <- (list.Forall2_length _ _ _ Hcol).
    by apply lookup_ge_None.
Qed.

Lemma transpose_rect (b : Board) (n : nat) :
  b ≠ [] -> Forall (fun row => length row = n) b ->
  exists t, transpose b = Some t
            /\ length t = n
            /\ Forall (fun col => length col = length b) t
            /\ forall i j, cellAt t i j = cellAt b j i.
Proof.
  intros Hne Hrows. unfold transpose.
  destruct (b !! 0%nat) as [row0|] eqn:H0; [|by destruct b].
  assert (Hn : length row0 = n).
  { rewrite Forall_lookup in Hrows. by apply (Hrows 0%nat). }
  cbn [mbind option_bind]. rewrite Hn.
  destruct (mapM_is_Some_2 (fun i => mapM (fun row : list Z => row !! i) b) (seq 0 n))
    as [t Ht].
  { apply Forall_forall. intros i Hi%in_seq. simpl.
    destruct (column_lookup b n i Hrows) as (col & Hcol & _); [lia|]. by exists col. }
  exists t. split; [done|]. apply mapM_Some_1 in Ht.
  assert (Hlen : length t = n).
  { rewrite <- (list.Forall2_length _ _ _ Ht). apply length_seq. }
  split; [done|].
  assert (Hcols : forall i col, t !! i = Some col ->
            (i < n)%nat /\ length col = length b /\ forall j, col !! j = cellAt b j i).
  { intros i col Hi.
    destruct (Forall2_lookup_r _ _ _ i col Ht Hi) as (i' & Hi' & Hcol).
    apply lookup_seq in Hi' as [-> Hlt]. simpl in Hcol |- *.
    destruct (column_lookup b n i Hrows Hlt) as (col' & Hcol' & Hl & Hc).
    assert (col = col') as -> by congruence. done. }
  split.
  - apply Forall_lookup. intros i col Hi. by destruct (Hcols i col Hi) as (_ & ? & _).
  - intros i j. unfold cellAt at 1. destruct (t !! i) as [col|] eqn:Hi; cbn.
    + by destruct (Hcols i col Hi) as (_ & _ & ->).
    + apply lookup_ge_None in Hi. unfold cellAt.
      destruct (b !! j) as [row|] eqn:Hrow; [|done]. cbn. symmetry.
      apply lookup_ge_None. rewrite Forall_lookup in Hrows.
      rewrite (Hrows j row Hrow). lia.
Qed.

Lemma transpose_round_trip (b : Board) (n : nat) :
  b ≠ [] -> Forall (fun row => length row = n) b ->
  exists t, transpose b = Some t
            /\ length t = n
            /\ Forall (fun col => length col = length b) t
            /\ (forall i j, cellAt t i j = cellAt b j i)
            /\ (n ≠ 0%nat -> transpose t = Some b)
            /\ (n = 0%nat -> transpose t = None).
Proof.
  intros Hne Hrows.
  destruct (transpose_rect b n Hne Hrows) as (t & Ht & Hlen & Hcols & Hcell).
  exists t. split; [done|]. split; [done|]. split; [done|]. split; [done|]. split.
  - intros Hn.
    destruct (transpose_rect t (length b)) as (t' & Ht' & Hlen' & _ & Hcell'); [|done|].
    { intros ->. simpl in Hlen. lia. }
    rewrite Ht'. f_equal. apply board_ext; [done|].
    intros i j. by rewrite Hcell', Hcell.
  - intros ->. by destruct t.
Qed.

(** X13.  [transpose] on an empty board does not return (it reads
    [board[0]]).  On a non-empty board whose rows all have length [n] it
    returns the [n] columns, each as long as the board has rows, with cell
    [(i, j)] equal to the input's cell [(j, i)]; transposing again gives the
    input back when [n > 0], and does not return when [n = 0]. *)
Theorem transpose_spec :
  transpose [] = None
  /\ forall (b : Board) (n : nat),
      b ≠ [] -> Forall (fun row => length row = n) b ->
      exists t, transpose b = Some t
                /\ length t = n
                /\ Forall (fun col => length col = length b) t
                /\ (forall i j, cellAt t i j = cellAt b j i)
                /\ (n ≠ 0%nat -> transpose t = Some b)
                /\ (n = 0%nat -> transpose t = None).
Proof. split; [done|]. apply transpose_round_trip. Qed.

Lemma transpose_spec_witness :
  exists t, transpose [[1; 2; 3]; [4; 5; 6]] = Some t /\ transpose t = Some [[1; 2; 3]; [4; 5; 6]].
Proof.
  destruct (proj2 transpose_spec [[1; 2; 3]; [4; 5; 6]] 3%nat)
    as (t & Ht & _ & _ & _ & Hback & _).
  - done.
  - by repeat constructor.
  - exists t. split; [done|]. by apply Hback.
Defined.

Lemma rev_lookup (l : list Z) (i : nat) :
  (i < length l)%nat -> rev l !! i = l !! (length l - S i)%nat.
Proof. intros Hi. rewrite rev_alt. by apply reverse_lookup. Qed.

(** X14.  [reverseRows] is its own inverse on every board, keeps the number
    of rows and the length of each row, and puts at column [c] of a row what
    the input has at the mirrored column. *)
Theorem reverseRows_spec (b : Board) :
  reverseRows (reverseRows b) = b
  /\ length (reverseRows b) = length b
  /\ forall r row c,
      b !! r = Some row -> (c < length row)%nat ->
      cellAt (reverseRows b) r c = cellAt b r (length row - S c)%nat.
Proof.
  split; [apply reverseRows_involutive|].
  split; [unfold reverseRows; apply length_map|].
  intros r row c Hrow Hc. unfold cellAt, reverseRows.
  change (map (fun row => rev row) b) with ((fun row => rev row) <$> b).
  rewrite list_lookup_fmap, Hrow. cbn. by apply rev_lookup.
Qed.

Lemma reverseRows_spec_witness :
  cellAt (reverseRows [[1; 2; 3]; [4; 5]]) 1 0 = cellAt [[1; 2; 3]; [4; 5]] 1 1.
Proof.
  apply (proj2 (proj2 (reverseRows_spec [[1; 2; 3]; [4; 5]])) 1%nat [4; 5] 0%nat).
  - reflexivity.
  - simpl. lia.
Defined.

(** ** Boards of other heights *)

Lemma slideRows_first_four (r0 r1 r2 r3 : list Z) (rest : Board) :
  slideRows (r0 :: r1 :: r2 :: r3 :: rest)
  = Some (map slideAndMerge [r0; r1; r2; r3] ++ rest,
          existsb rowChanged [r0; r1; r2; r3]).
Proof.
  unfold slideRows. cbn -[some].
  fold (rowChanged r0) (rowChanged r1) (rowChanged r2) (rowChanged r3).
  do 2 f_equal.
  destruct (rowChanged r0), (rowChanged r1), (rowChanged r2), (rowChanged r3); reflexivity.
Qed.

Lemma slideRows_short (b : Board) : (length b < SIZE)%nat -> slideRows b = None.
Proof.
  intros Hlen. unfold slideRows.
  destruct b as [|r0 [|r1 [|r2 [|r3 rest]]]]; [done..|].
  simpl in Hlen. unfold SIZE in Hlen. lia.
Qed.

Lemma move_rows (b : Board) :
  ((length b < SIZE)%nat -> move b left = None /\ move b right = None)
  /\ ((SIZE <= length b)%nat ->
      move b left
      = Some {| newBoard := map slideAndMerge (take SIZE b) ++ drop SIZE b;
                moved := existsb rowChanged (take SIZE b) |}
      /\ move b right
         = Some {| newBoard :=
                     reverseRows (map slideAndMerge (reverseRows (take SIZE b)))
                     ++ drop SIZE b;
                   moved := existsb rowChanged (reverseRows (take SIZE b)) |}).
Proof.
  unfold move. rewrite cloneBoard_id. split.
  - intros Hlen. rewrite (slideRows_short b Hlen).
    rewrite (slideRows_short (reverseRows b)); [done|].
    unfold reverseRows. by rewrite length_map.
  - intros Hlen. destruct b as [|r0 [|r1 [|r2 [|r3 rest]]]];
      try (simpl in Hlen; unfold SIZE in Hlen; lia).
    split.
    + by rewrite slideRows_first_four.
    + cbn [reverseRows map]. rewrite slideRows_first_four.
      cbn [mbind option_bind fst snd take drop SIZE map app].
      do 2 f_equal. rewrite take_0, drop_0. unfold reverseRows. cbn [map app].
      do 4 f_equal. rewrite map_map.
      rewrite <- (map_id rest) at 2. apply map_ext. intros row. apply rev_involutive.
Qed.

(** X15.  [move] to the left or right does not return on a board with
    fewer than [SIZE] rows (it reads a row that is not there).  On a board
    with at least [SIZE] rows, of any lengths, it returns: the first
    [SIZE] rows are slid and every further row is returned as it was. *)
Theorem move_horizontal_rows (b : Board) :
  ((length b < SIZE)%nat -> move b left = None /\ move b right = None)
  /\ ((SIZE <= length b)%nat ->
      move b left
      = Some {| newBoard := map slideAndMerge (take SIZE b) ++ drop SIZE b;
                moved := existsb rowChanged (take SIZE b) |}
      /\ move b right
         = Some {| newBoard :=
                     reverseRows (map slideAndMerge (reverseRows (take SIZE b)))
                     ++ drop SIZE b;
                   moved := existsb rowChanged (reverseRows (take SIZE b)) |}).
Proof. apply move_rows. Qed.

Lemma move_horizontal_rows_witness :
  move [[2; 2]; [4; 0; 4]; [0]] left = None
  /\ move [[0; 2]; [2; 2]; []; [4]; [0; 7; 0]] left
     = Some {| newBoard := [[2; 0; 0; 0]; [4; 0; 0; 0]; [0; 0; 0; 0]; [4; 0; 0; 0]; [0; 7; 0]];
               moved := true |}.
Proof.
  split.
  - apply (proj1 (move_horizontal_rows [[2; 2]; [4; 0; 4]; [0]])). unfold SIZE. simpl. lia.
  - rewrite (proj1 (proj2 (move_horizontal_rows [[0; 2]; [2; 2]; []; [4]; [0; 7; 0]])
                     ltac:(unfold SIZE; simpl; lia))).
    reflexivity.
Defined.
